(** * Research assistant front end and research pipeline: a shallow embedding

    The development follows the TypeScript sources of the web client
    ([ResearchForm], [Index.handleResearch], [useHealthCheck], the endpoint
    table of [config/api.ts]) and, for the research pipeline whose code is not
    part of the sources at hand, the written specification.

    JavaScript values are modelled as they exist at run time: strings are
    sequences of UTF-16 code units, parsed JSON is a tree, React state is a
    record that the setters update in call order, and [setTimeout] callbacks
    sit in a queue ordered by due time. *)

From Stdlib Require Import List NArith ZArith QArith Bool Lia.
From Stdlib Require Import Ascii String DecimalString DecimalN DecimalPos.
Import ListNotations.

Set Warnings "-register-all".

(* ------------------------------------------------------------------------- *)
(** ** JavaScript strings and JSON values *)

Module JS.

(** A JavaScript string: a finite sequence of 16-bit code units. *)
Definition jsstring := list N.

(** A source literal (all literals of the sources are ASCII). *)
Definition lit (s : string) : jsstring :=
  map N_of_ascii (list_ascii_of_string s).

(** The double quote character, used inside template literals. *)
Definition dquote : jsstring := [34%N].

Definition jsstring_eqb (a b : jsstring) : bool :=
  if list_eq_dec N.eq_dec a b then true else false.

(** [WhiteSpace] and [LineTerminator] code points of ECMAScript, the set that
    [String.prototype.trim] strips: TAB, LF, VT, FF, CR, SP, NBSP, the
    category Zs, LS, PS and the byte order mark. *)
Definition is_whitespace (c : N) : bool :=
  ((9 <=? c) && (c <=? 13)
   || (c =? 32) || (c =? 160) || (c =? 5760)
   || ((8192 <=? c) && (c <=? 8202))
   || (c =? 8232) || (c =? 8233) || (c =? 8239) || (c =? 8287)
   || (c =? 12288) || (c =? 65279))%N.

(** [String.prototype.trimStart]. *)
Fixpoint trimStart (s : jsstring) : jsstring :=
  match s with
  | [] => []
  | c :: t => if is_whitespace c then trimStart t else s
  end.

(** [String.prototype.trimEnd]. *)
Fixpoint trimEnd (s : jsstring) : jsstring :=
  match s with
  | [] => []
  | c :: t =>
      match trimEnd t with
      | [] => if is_whitespace c then [] else [c]
      | t' => c :: t'
      end
  end.

(** [String.prototype.trim]. *)
Definition trim (s : jsstring) : jsstring := trimEnd (trimStart s).

(** Decimal rendering of a non-negative integer, as [String(n)] and template
    literals produce it. *)
Definition decimal (n : N) : jsstring :=
  lit (NilZero.string_of_uint (N.to_uint n)).

(** A parsed JSON document ([response.json()]).  Objects keep their members
    in document order. *)
Inductive Json : Type :=
| JNull
| JBool (b : bool)
| JNum (q : Q)
| JStr (s : jsstring)
| JArr (items : list Json)
| JObj (members : list (jsstring * Json)).

(** Own-property lookup in an object; with a repeated key the last member
    wins, as in [JSON.parse]. *)
Fixpoint lookup (k : jsstring) (ms : list (jsstring * Json)) : option Json :=
  match ms with
  | [] => None
  | (k', v) :: rest =>
      match lookup k rest with
      | Some v' => Some v'
      | None => if jsstring_eqb k' k then Some v else None
      end
  end.

(** What a member access [v.k] evaluates to. *)
Inductive Access : Type :=
| Threw                       (* TypeError: v is null *)
| Undefined
| Value (v : Json).

(** [v.k] for the property names the client reads ([events], [message],
    [answer], [citations]); none of them exists on the prototypes of
    strings, numbers, booleans or arrays. *)
Definition get (v : Json) (k : jsstring) : Access :=
  match v with
  | JNull => Threw
  | JObj ms => match lookup k ms with Some x => Value x | None => Undefined end
  | _ => Undefined
  end.

(** [ToBoolean]. *)
Definition truthy (v : Json) : bool :=
  match v with
  | JNull => false
  | JBool b => b
  | JNum q => negb (Qeq_bool q 0)
  | JStr s => match s with [] => false | _ => true end
  | JArr _ | JObj _ => true
  end.

(** [ToBoolean] of a string. *)
Definition truthy_string (s : jsstring) : bool :=
  match s with [] => false | _ => true end.

(** A thrown value as the [catch] clause of the client inspects it:
    [err instanceof Error] and, if so, [err.message]. *)
Inductive Thrown : Type :=
| ErrorObject (message : jsstring)
| NotAnError.

End JS.

(* ------------------------------------------------------------------------- *)
(** ** The research form ([ResearchForm.tsx]) *)

Module ResearchForm.
Import JS.

(** [handleSubmit]: [Some s] when [onSubmit(s)] is called, [None] when the
    submission is dropped.  [query] is the text area's state and [isLoading]
    the prop of the current render. *)
Definition handleSubmit (query : jsstring) (isLoading : bool) : option jsstring :=
  if truthy_string (trim query) && negb isLoading
  then Some (trim query)
  else None.

(** The [disabled] attribute of the submit button. *)
Definition submit_disabled (query : jsstring) (isLoading : bool) : bool :=
  negb (truthy_string (trim query)) || isLoading.

End ResearchForm.

(* ------------------------------------------------------------------------- *)
(** ** Endpoint table ([config/api.ts]) *)

Module Api.
Import JS.

(** [import.meta.env.VITE_API_URL || "http://localhost:8000"]; the variable
    is [None] when it is not defined at build time. *)
Definition API_BASE_URL (VITE_API_URL : option jsstring) : jsstring :=
  match VITE_API_URL with
  | Some u => if truthy_string u then u else lit "http://localhost:8000"
  | None => lit "http://localhost:8000"
  end.

Record Endpoints : Type := {
  health : jsstring;
  status : jsstring;
  research : jsstring
}.

Definition API_ENDPOINTS (VITE_API_URL : option jsstring) : Endpoints := {|
  health := API_BASE_URL VITE_API_URL ++ lit "/api/health";
  status := API_BASE_URL VITE_API_URL ++ lit "/api/status";
  research := API_BASE_URL VITE_API_URL ++ lit "/api/research"
|}.

Definition HEALTH_CHECK_ENDPOINT (VITE_API_URL : option jsstring) : jsstring :=
  health (API_ENDPOINTS VITE_API_URL).

End Api.

(* ------------------------------------------------------------------------- *)
(** ** The health poll ([useHealthCheck.ts]) *)

Module HealthCheck.
Import JS.

Inductive HealthStatus : Type := online | offline | checking.

(** What the network does with one GET request: answer with an HTTP status
    after some milliseconds, fail after some milliseconds (DNS, refused
    connection, CORS), or never answer. *)
Inductive Network : Type :=
| Responds (latency_ms : N) (http_status : N)
| Fails (latency_ms : N)
| Silent.

Inductive Rejection : Type := NetworkFailure | TimeoutError.

(** The settled promise of [fetch]. *)
Inductive FetchResult : Type :=
| Fulfilled (http_status : N)
| Rejected (why : Rejection).

(** The argument of [AbortSignal.timeout]. *)
Definition timeout_ms : N := 5000.

(** [fetch(url, { method: "GET", signal: AbortSignal.timeout(5000) })]: the
    abort fires [timeout_ms] after the call, whatever settles before it
    decides the promise. *)
Definition fetch (net : Network) : FetchResult :=
  match net with
  | Responds l st => if (l <? timeout_ms)%N then Fulfilled st else Rejected TimeoutError
  | Fails l => if (l <? timeout_ms)%N then Rejected NetworkFailure else Rejected TimeoutError
  | Silent => Rejected TimeoutError
  end.

(** [Response.ok]: the status is in the range 200 to 299. *)
Definition ok (http_status : N) : bool :=
  ((200 <=? http_status) && (http_status <=? 299))%N.

(** [checkHealth]: the value passed to [setStatus] when the poll settles. *)
Definition checkHealth (net : Network) : HealthStatus :=
  match fetch net with
  | Fulfilled st => if ok st then online else offline
  | Rejected _ => offline
  end.

(** [useHealthCheck]: the state starts as ["checking"] and every settled poll
    overwrites it; [polls] lists the polls that have settled so far, oldest
    first. *)
Definition useHealthCheck (polls : list Network) : HealthStatus :=
  fold_left (fun _ net => checkHealth net) polls checking.

End HealthCheck.

(* ------------------------------------------------------------------------- *)
(** ** The research page ([pages/Index.tsx]) *)

Module Index.
Import JS.

(** An entry of the activity timeline ([Timeline.tsx]).  [message] is
    declared a string; at run time it holds whatever the handler stored. *)
Record TimelineEvent : Type := {
  id : jsstring;
  timestamp : jsstring;
  message : Json;
  type : option jsstring
}.

(** The five [useState] cells of the page. *)
Record State : Type := {
  isLoading : bool;
  error : option jsstring;
  timeline : list TimelineEvent;
  answer : Json;
  citations : Json
}.

Definition initial_state : State := {|
  isLoading := false;
  error := None;
  timeline := [];
  answer := JStr [];
  citations := JArr []
|}.

(** A pending [setTimeout] callback of [handleResearch]: the closure captures
    [index] and [event]; [due] is the time at which it may run. *)
Record Timer : Type := {
  due : N;
  index : N;
  event : Json
}.

Inductive Toast : Type :=
| toast_success (text : jsstring)
| toast_error (text : jsstring) (description : jsstring).

(** The page together with the part of the browser it talks to.  [now] is
    the time in milliseconds; [renderError] is set when a state updater threw
    while React was rendering. *)
Record World : Type := {
  ui : State;
  timers : list Timer;
  now : N;
  toasts : list Toast;
  renderError : bool
}.

Definition initial_world : World := {|
  ui := initial_state;
  timers := [];
  now := 0;
  toasts := [];
  renderError := false
|}.

(** The observable effects of the handler, in program order. *)
Inductive Effect : Type :=
| setIsLoading (b : bool)
| setError (e : option jsstring)
| setTimeline (events : list TimelineEvent)     (* setTimeline([...]) *)
| appendTimeline (ev : TimelineEvent)           (* setTimeline(prev => [...prev, ev]) *)
| setAnswer (a : Json)
| setCitations (c : Json)
| setTimeout (idx : N) (ev : Json) (delay_ms : N)
| toast (t : Toast).

(** The request handed to [fetch]; [body] is the value given to
    [JSON.stringify]. *)
Record FetchRequest : Type := {
  url : jsstring;
  method : jsstring;
  headers : list (jsstring * jsstring);
  body : Json
}.

(** An HTTP response as the handler reads it; [json] is the settled result
    of [response.json()]. *)
Record Response : Type := {
  status : N;
  statusText : jsstring;
  json : Thrown + Json
}.

(** [response.ok]. *)
Definition ok (r : Response) : bool :=
  ((200 <=? status r) && (status r <=? 299))%N.

(** The settled promise of [fetch]. *)
Inductive FetchOutcome : Type :=
| Rejected (err : Thrown)
| Fulfilled (r : Response).

Definition with_ui (f : State -> State) (w : World) : World := {|
  ui := f (ui w);
  timers := timers w;
  now := now w;
  toasts := toasts w;
  renderError := renderError w
|}.

Definition with_timeline (f : list TimelineEvent -> list TimelineEvent)
    (s : State) : State := {|
  isLoading := isLoading s;
  error := error s;
  timeline := f (timeline s);
  answer := answer s;
  citations := citations s
|}.

(** Timers run in order of due time; among equal due times in order of
    registration. *)
Fixpoint enqueue (tm : Timer) (q : list Timer) : list Timer :=
  match q with
  | [] => [tm]
  | x :: rest =>
      if (due x <=? due tm)%N then x :: enqueue tm rest else tm :: q
  end.

(** One effect applied to the world: the state cells are assigned as React
    assigns them.  Whether the page can render the new state is the subject
    of [IndexView.render]; a world whose state cannot be rendered is one in
    which the page is off screen ([IndexView.mounted]). *)
Definition perform (e : Effect) (w : World) : World :=
  match e with
  | setIsLoading b =>
      with_ui (fun s => {| isLoading := b; error := error s;
                           timeline := timeline s; answer := answer s;
                           citations := citations s |}) w
  | setError e' =>
      with_ui (fun s => {| isLoading := isLoading s; error := e';
                           timeline := timeline s; answer := answer s;
                           citations := citations s |}) w
  | setTimeline evs => with_ui (with_timeline (fun _ => evs)) w
  | appendTimeline ev => with_ui (with_timeline (fun prev => prev ++ [ev])) w
  | setAnswer a =>
      with_ui (fun s => {| isLoading := isLoading s; error := error s;
                           timeline := timeline s; answer := a;
                           citations := citations s |}) w
  | setCitations c =>
      with_ui (fun s => {| isLoading := isLoading s; error := error s;
                           timeline := timeline s; answer := answer s;
                           citations := c |}) w
  | setTimeout i ev d =>
      {| ui := ui w;
         timers := enqueue {| due := now w + d; index := i; event := ev |} (timers w);
         now := now w; toasts := toasts w; renderError := renderError w |}
  | toast t =>
      {| ui := ui w; timers := timers w; now := now w;
         toasts := toasts w ++ [t]; renderError := renderError w |}
  end.

(** The worlds reached after each effect of a block of synchronous code. *)
Fixpoint run_trace (es : list Effect) (w : World) : list World :=
  match es with
  | [] => []
  | e :: rest => let w' := perform e w in w' :: run_trace rest w'
  end.

(** The world after a block of synchronous code. *)
Definition run (es : list Effect) (w : World) : World :=
  last (run_trace es w) w.

Section Handler.

(** [new Date(t).toLocaleTimeString()] for the time [t]. *)
Variable clock : N -> jsstring.
(** The build-time variable [VITE_API_URL]. *)
Variable VITE_API_URL : option jsstring.
(** The message of the TypeError raised by a member access on [null]. *)
Variable nullAccessMessage : jsstring.

(** [event.message || event], evaluated inside the updater of the timer
    callback; [None] when it throws. *)
Definition event_message (ev : Json) : option Json :=
  match get ev (lit "message") with
  | Threw => None
  | Undefined => Some ev
  | Value m => if truthy m then Some m else Some ev
  end.

(** The body of the callback given to [setTimeout], run at time [now w].
    When the updater throws, [renderError] records it: from then on the
    page is off screen ([IndexView.mounted]), and the cells only tell what
    the later updates would have stored. *)
Definition timer_callback (tm : Timer) (w : World) : World :=
  match event_message (event tm) with
  | Some m =>
      perform (appendTimeline {| id := lit "event-" ++ decimal (index tm);
                                 timestamp := clock (now w);
                                 message := m;
                                 type := None |}) w
  | None =>
      {| ui := ui w; timers := timers w; now := now w;
         toasts := toasts w; renderError := true |}
  end.

Definition at_time (t : N) (w : World) : World := {|
  ui := ui w; timers := timers w; now := t;
  toasts := toasts w; renderError := renderError w
|}.

Definition with_timers (q : list Timer) (w : World) : World := {|
  ui := ui w; timers := q; now := now w;
  toasts := toasts w; renderError := renderError w
|}.

(** The event loop up to the time [limit]: every timer of the queue [q] that
    is due by then runs, in queue order, at its due time (or at once when it
    is overdue).  The worlds after each callback are listed; the callbacks
    register no timers. *)
Fixpoint fire_trace (limit : N) (q : list Timer) (w : World) : list World :=
  match q with
  | [] => []
  | tm :: rest =>
      if (due tm <=? limit)%N
      then let w' := timer_callback tm
                       (with_timers rest (at_time (N.max (now w) (due tm)) w)) in
           w' :: fire_trace limit rest w'
      else []
  end.

(** Idle for [dt] milliseconds (an [await] that settles [dt] later). *)
Definition await_trace (dt : N) (w : World) : list World :=
  let limit := (now w + dt)%N in
  let fired := fire_trace limit (timers w) w in
  fired ++ [at_time limit (last fired w)].

(** Idle until the timer queue is empty. *)
Definition settle_trace (w : World) : list World :=
  fire_trace (fold_right N.max (now w) (map due (timers w))) (timers w) w.

Definition start_event (query : jsstring) (t : N) : TimelineEvent := {|
  id := lit "start";
  timestamp := clock t;
  message := JStr (lit "Started research for: " ++ dquote ++ query ++ dquote);
  type := None
|}.

Definition processing_event (t : N) : TimelineEvent := {|
  id := lit "processing";
  timestamp := clock t;
  message := JStr (lit "Processing research data...");
  type := None
|}.

Definition complete_event (t : N) : TimelineEvent := {|
  id := lit "complete";
  timestamp := clock t;
  message := JStr (lit "Research completed successfully");
  type := None
|}.

Definition error_event (errorMessage : jsstring) (t : N) : TimelineEvent := {|
  id := lit "error";
  timestamp := clock t;
  message := JStr (lit "Error: " ++ errorMessage);
  type := Some (lit "error")
|}.

(** The argument of [fetch] in [handleResearch]. *)
Definition research_request (query : jsstring) : FetchRequest := {|
  url := Api.research (Api.API_ENDPOINTS VITE_API_URL);
  method := lit "POST";
  headers := [(lit "Content-Type", lit "application/json")];
  body := JObj [(lit "query", JStr query)]
|}.

(** [handleResearch] up to [await fetch(...)], run at time [t]. *)
Definition handleResearch_begin (query : jsstring) (t : N) : list Effect :=
  [ setIsLoading true;
    setError None;
    setTimeline [];
    setAnswer (JStr []);
    setCitations (JArr []);
    setTimeline [start_event query t] ].

(** [err instanceof Error ? err.message : "Failed to connect to backend"]. *)
Definition errorMessage (err : Thrown) : jsstring :=
  match err with
  | ErrorObject m => m
  | NotAnError => lit "Failed to connect to backend"
  end.

(** The [catch] block. *)
Definition catch_block (err : Thrown) (t : N) : list Effect :=
  [ setError (Some (errorMessage err));
    appendTimeline (error_event (errorMessage err) t);
    toast (toast_error (lit "Research failed") (errorMessage err)) ].

(** The [finally] block. *)
Definition finally_block : list Effect := [ setIsLoading false ].

(** [data.events.forEach((event, index) => setTimeout(..., index * 300))]. *)
Fixpoint schedule_events (idx : N) (events : list Json) : list Effect :=
  match events with
  | [] => []
  | ev :: rest => setTimeout idx ev (idx * 300) :: schedule_events (idx + 1) rest
  end.

(** [v || fallback] for a member access that did not throw. *)
Definition or_else (a : Access) (fallback : Json) : Json :=
  match a with
  | Value v => if truthy v then v else fallback
  | _ => fallback
  end.

(** The [try] block from [const data = await response.json()] on, for parsed
    [data], run at time [t]. *)
Definition process_data (data : Json) (t : N) : list Effect :=
  appendTimeline (processing_event t) ::
  match get data (lit "events") with
  | Threw => catch_block (ErrorObject nullAccessMessage) t
  | events =>
      match events with
      | Value (JArr items) => schedule_events 0 items
      | _ => []
      end ++
      [ appendTimeline (complete_event t);
        setAnswer (or_else (get data (lit "answer"))
                           (JStr (lit "No answer provided by the backend.")));
        setCitations (or_else (get data (lit "citations")) (JArr []));
        toast (toast_success (lit "Research completed!")) ]
  end.

(** [handleResearch] after the awaited promises have settled, run at time
    [t]. *)
Definition handleResearch_resume (outcome : FetchOutcome) (t : N) : list Effect :=
  match outcome with
  | Rejected err => catch_block err t
  | Fulfilled r =>
      if negb (ok r)
      then catch_block
             (ErrorObject (lit "Backend error: " ++ decimal (status r)
                           ++ lit " " ++ statusText r)) t
      else match json r with
           | inl err => catch_block err t
           | inr data => process_data data t
           end
  end ++ finally_block.

(** The timers that [schedule_events] registers at time [t]. *)
Fixpoint event_timers (t idx : N) (events : list Json) : list Timer :=
  match events with
  | [] => []
  | ev :: rest =>
      {| due := t + idx * 300; index := idx; event := ev |}
      :: event_timers t (idx + 1) rest
  end.

(** The timeline entries that those timers append when each runs at its due
    time. *)
Fixpoint event_entries (t idx : N) (events : list Json) : list TimelineEvent :=
  match events with
  | [] => []
  | ev :: rest =>
      {| id := lit "event-" ++ decimal idx;
         timestamp := clock (t + idx * 300);
         message := or_else (get ev (lit "message")) ev;
         type := None |}
      :: event_entries t (idx + 1) rest
  end.

(** Every world the page goes through while one call of [handleResearch]
    is handled, from the emission of the start event until its last timer
    has run: the synchronous prefix, the wait of [latency] milliseconds for
    the response and its body (the two [await]s, taken as one; timers of
    earlier requests may run meanwhile), the rest of the handler, and the
    timers. *)
Definition handleResearch_trace (query : jsstring) (latency : N)
    (outcome : FetchOutcome) (w : World) : list World :=
  let w1 := run (handleResearch_begin query (now w)) w in
  let t1 := await_trace latency w1 in
  let w2 := last t1 w1 in
  let t2 := run_trace (handleResearch_resume outcome (now w2)) w2 in
  let w3 := last t2 w2 in
  w1 :: t1 ++ t2 ++ settle_trace w3.

(** The page when the handling of the request is over. *)
Definition handleResearch (query : jsstring) (latency : N)
    (outcome : FetchOutcome) (w : World) : World :=
  last (handleResearch_trace query latency outcome w) w.

End Handler.

(** The inbound request contract of the research endpoint:
    [{query: string, source: string, maxIterations?: int}]. *)
Definition conforms_to_request_contract (b : Json) : Prop :=
  (exists q, get b (lit "query") = Value (JStr q)) /\
  (exists s, get b (lit "source") = Value (JStr s)) /\
  (get b (lit "maxIterations") = Undefined \/
   exists n : Z, get b (lit "maxIterations") = Value (JNum (inject_Z n))).

(** The request failed: [fetch] rejected, or the response is not [ok]. *)
Definition request_failed (outcome : FetchOutcome) : bool :=
  match outcome with
  | Rejected _ => true
  | Fulfilled r => negb (ok r)
  end.

(** The message of the error caught for a failed request. *)
Definition failure_message (outcome : FetchOutcome) : jsstring :=
  match outcome with
  | Rejected err => errorMessage err
  | Fulfilled r =>
      lit "Backend error: " ++ decimal (status r) ++ lit " " ++ statusText r
  end.

(** The entries of the timeline that are marked as errors. *)
Definition is_error_event (ev : TimelineEvent) : bool :=
  match type ev with
  | Some k => jsstring_eqb k (lit "error")
  | None => false
  end.

(** Each list of a history extends the one before it at the end. *)
Fixpoint append_only (history : list (list TimelineEvent)) : Prop :=
  match history with
  | earlier :: (later :: _) as rest =>
      (exists added, later = earlier ++ added) /\ append_only rest
  | _ => True
  end.

(** Every world of [ws], taken in order from [w], is related to the one
    before it. *)
Fixpoint stepwise (P : World -> World -> Prop) (w : World) (ws : list World) : Prop :=
  match ws with
  | [] => True
  | x :: rest => P w x /\ stepwise P x rest
  end.

(** The timeline grew at its end (or stayed as it was). *)
Definition extends (w w' : World) : Prop :=
  exists added, timeline (ui w') = timeline (ui w) ++ added.

(** Only the timeline changed, by entries that are not error entries: what
    the timers of the page do. *)
Definition only_appends_events (w w' : World) : Prop :=
  isLoading (ui w') = isLoading (ui w) /\
  error (ui w') = error (ui w) /\
  answer (ui w') = answer (ui w) /\
  citations (ui w') = citations (ui w) /\
  exists added,
    timeline (ui w') = timeline (ui w) ++ added /\
    Forall (fun ev => type ev = None) added.

(** An effect other than [setTimeline([...])]. *)
Definition keeps_entries (e : Effect) : Prop :=
  match e with
  | setTimeline _ => False
  | _ => True
  end.

End Index.

(* ------------------------------------------------------------------------- *)
(** ** The research pipeline

    The pipeline (search connector, reflection controller) runs on the
    server; its code is not among the sources of the client.  The two
    components below are written from the prose of the specification. *)

Module Pipeline.
Import JS.

(** Modelled from the spec: [SearchResult] of the data model (section 3;
    the server code that declares it is missing). *)
Record SearchResult : Type := {
  url : jsstring;
  title : jsstring;
  snippet : jsstring;
  sourceProvider : jsstring;
  fetchedAt : N
}.

(** Modelled from the spec: [ProviderError{transient|permanent}] of the
    error taxonomy (section 7; server code, missing). *)
Inductive ErrorKind : Type := transient | permanent.

(** Modelled from the spec: the reply of the search provider capability
    (section 6; the provider clients are server code, missing):
    [search(text) -> [SearchResult] | RateLimited | ProviderError], with
    [ProviderError{transient|permanent}] of section 7. *)
Inductive ProviderReply : Type :=
| Results (rs : list SearchResult)
| RateLimited
| ProviderError (kind : ErrorKind).

(** Modelled from the spec: a provider, or the mock of the test scenarios,
    seen from one [search] call (server code, missing): its reply to the
    call number [n], counted from 0. *)
Definition Provider := nat -> ProviderReply.

(** Modelled from the spec: what one [search] call of the search connector
    did (server code, missing): the value handed back to the caller, the
    number of provider calls observed, and the pauses between them. *)
Record Searched : Type := {
  returned : list SearchResult + ErrorKind;
  calls : nat;
  pauses : list N
}.

(** Modelled from the spec: the retry budget of the search connector,
    "capped at 3 attempts" (section 4.2; server code, missing). *)
Definition max_attempts : nat := 3.

(** Modelled from the spec: the pause of the search connector before the
    retry that follows attempt [n], "exponential backoff (base 2, jittered)";
    the server code is missing, [jitter] is the random part. *)
Definition backoff (jitter : nat -> N) (n : nat) : N :=
  (2 ^ N.of_nat n + jitter n)%N.

(** Modelled from the spec: the cache-miss path of the search connector's
    [search] (server code, missing), section 4.2 and section 7 of the
    specification: the provider is called; on a [RateLimited] signal or a
    transient provider error the call is retried after a backoff pause, at
    most [budget] attempts in all, before [ProviderError(transient)] is
    surfaced; a permanent error is surfaced at once. *)
Fixpoint attempt (p : Provider) (jitter : nat -> N) (n budget : nat) : Searched :=
  match budget with
  | O => {| returned := inr transient; calls := O; pauses := [] |}
  | S rest =>
      match p n with
      | Results rs => {| returned := inl rs; calls := 1; pauses := [] |}
      | ProviderError permanent =>
          {| returned := inr permanent; calls := 1; pauses := [] |}
      | RateLimited | ProviderError transient =>
          match rest with
          | O => {| returned := inr transient; calls := 1; pauses := [] |}
          | S _ =>
              let r := attempt p jitter (S n) rest in
              {| returned := returned r;
                 calls := S (calls r);
                 pauses := backoff jitter n :: pauses r |}
          end
      end
  end.

(** Modelled from the spec: [search] of the search connector on a cache
    miss (server code, missing), "capped at 3 attempts". *)
Definition search (p : Provider) (jitter : nat -> N) : Searched :=
  attempt p jitter 0 max_attempts.

(** Modelled from the spec: the provider mock of scenario D (section 8; the
    test code is missing), [RateLimited] twice, then a result. *)
Definition rate_limited_twice (rs : list SearchResult) : Provider :=
  fun n => if (n <? 2)%nat then RateLimited else Results rs.


(** Modelled from the spec: what the reflection controller reads of the
    request and of the configuration object (sections 3, 4.3 and 9; server
    code, missing): the iteration budget of the request and the confidence
    threshold. *)
Record Config : Type := {
  maxIterations : N;
  threshold : Q
}.

(** Modelled from the spec: the confidence threshold, "default 0.75"
    (section 4.3; server code, missing). *)
Definition default_threshold : Q := 3 # 4.

(** Modelled from the spec: the states of the reflection controller
    (section 4.3; server code, missing). *)
Inductive Phase : Type :=
| INITIAL | SEARCHING | REFLECTING | SYNTHESIZING | DONE | FAILED.

(** Modelled from the spec: the state of the reflection controller of one
    request (server code, missing).  [iterationsUsed] counts the search
    rounds entered so far, as scenarios A and B of section 8 count them: one
    round gives [iterationsUsed = 1], a run through all rounds gives
    [iterationsUsed = maxIterations]. *)
Record Controller : Type := {
  phase : Phase;
  iterationIndex : N;
  iterationsUsed : N
}.

(** Modelled from the spec: the reflection controller of a new request
    (server code, missing): state [INITIAL], iteration 0, nothing used. *)
Definition initial_controller : Controller :=
  {| phase := INITIAL; iterationIndex := 0; iterationsUsed := 0 |}.

(** Modelled from the spec: what happens to the reflection controller
    (server code, missing): the orchestrator starts the loop, a search round
    ends, a ReflectionVerdict with its confidence is produced, synthesis
    ends, the request times out or is cancelled, a step fails. *)
Inductive Signal : Type :=
| Started
| SearchCompleted
| Verdict (confidenceScore : Q)
| Synthesized
| Timeout
| Failure.

(** Modelled from the spec: the sufficiency heuristic of section 4.3 (server
    code, missing), [sufficient = confidenceScore >= threshold OR
    iterationIndex + 1 >= maxIterations]. *)
Definition sufficient (cfg : Config) (i : N) (confidenceScore : Q) : bool :=
  Qle_bool (threshold cfg) confidenceScore || (maxIterations cfg <=? i + 1)%N.

(** Modelled from the spec: the transitions of the reflection controller
    (server code, missing), section 4.3 and section 5:
    [INITIAL -> SEARCHING -> REFLECTING -> (SEARCHING | SYNTHESIZING) -> DONE],
    [FAILED] reachable from any state, a timeout forcing [SYNTHESIZING] with
    the evidence at hand.  The loop is the bounded loop of sections 4.3 and
    9, "bounded by maxIterations": a search round is entered only while the
    budget allows one more, at the start as after a verdict, and a request
    whose budget is exhausted proceeds to synthesis ("a request that
    exhausts maxIterations ... still proceeds to synthesis").  A signal that
    does not apply in the current phase is ignored. *)
Definition step (cfg : Config) (c : Controller) (s : Signal) : Controller :=
  match s, phase c with
  | Started, INITIAL =>
      if (1 <=? maxIterations cfg)%N
      then {| phase := SEARCHING; iterationIndex := 0; iterationsUsed := 1 |}
      else {| phase := SYNTHESIZING; iterationIndex := 0; iterationsUsed := 0 |}
  | SearchCompleted, SEARCHING =>
      {| phase := REFLECTING; iterationIndex := iterationIndex c;
         iterationsUsed := iterationsUsed c |}
  | Verdict conf, REFLECTING =>
      if sufficient cfg (iterationIndex c) conf
      then {| phase := SYNTHESIZING; iterationIndex := iterationIndex c;
              iterationsUsed := iterationsUsed c |}
      else {| phase := SEARCHING; iterationIndex := iterationIndex c + 1;
              iterationsUsed := iterationsUsed c + 1 |}
  | Synthesized, SYNTHESIZING =>
      {| phase := DONE; iterationIndex := iterationIndex c;
         iterationsUsed := iterationsUsed c |}
  | Timeout, (INITIAL | SEARCHING | REFLECTING) =>
      {| phase := SYNTHESIZING; iterationIndex := iterationIndex c;
         iterationsUsed := iterationsUsed c |}
  | Failure, _ =>
      {| phase := FAILED; iterationIndex := iterationIndex c;
         iterationsUsed := iterationsUsed c |}
  | _, _ => c
  end.

(** Modelled from the spec: the reflection controller of a request after a
    sequence of signals (server code, missing). *)
Definition run_controller (cfg : Config) (signals : list Signal) : Controller :=
  fold_left (step cfg) signals initial_controller.

(** What one [attempt] guarantees, for any budget and first call number. *)
Definition attempt_ok (p : Provider) (jitter : nat -> N) (n budget : nat)
    (r : Searched) : Prop :=
  ((0 < budget)%nat -> (0 < calls r <= budget)%nat) /\
  (forall k, (k < calls r)%nat -> p (n + k)%nat = RateLimited ->
             (k + 1 < budget)%nat -> (k + 1 < calls r)%nat) /\
  (returned r = inr transient -> calls r = budget) /\
  pauses r = map (backoff jitter) (seq n (calls r - 1)) /\
  (forall rs, returned r = inl rs -> p (n + (calls r - 1))%nat = Results rs).


End Pipeline.

(* ------------------------------------------------------------------------- *)
(** ** Concrete inputs used by the closed examples *)

Module Samples.
Import JS.

(** A clock that prints the time as its count of milliseconds. *)
Definition clock : N -> jsstring := decimal.

Definition nullAccessMessage : jsstring :=
  lit "Cannot read properties of null (reading 'events')".

Definition query : jsstring := lit "What is quantum computing?".

(** A response in the documented result format: [answer], [citations],
    [timeline], [metadata]. *)
Definition contract_response : Index.Response := {|
  Index.status := 200;
  Index.statusText := lit "OK";
  Index.json := inr (JObj
    [ (lit "answer", JStr (lit "Quantum computing is..."));
      (lit "citations", JArr
         [ JObj [ (lit "url", JStr (lit "https://example.com"));
                  (lit "title", JStr (lit "Quantum Computing Basics"));
                  (lit "relevanceScore", JNum (95 # 100)) ] ]);
      (lit "timeline", JArr
         [ JObj [ (lit "step", JStr (lit "query_generation"));
                  (lit "message", JStr (lit "Generated 3 search queries"));
                  (lit "timestamp", JStr (lit "2024-01-15T10:30:00Z"));
                  (lit "status", JStr (lit "success")) ];
           JObj [ (lit "step", JStr (lit "search"));
                  (lit "message", JStr (lit "Searched 3 sources"));
                  (lit "timestamp", JStr (lit "2024-01-15T10:30:02Z"));
                  (lit "status", JStr (lit "success")) ] ]);
      (lit "metadata", JObj
         [ (lit "iterations", JNum (inject_Z 2));
           (lit "confidenceScore", JNum (92 # 100));
           (lit "status", JStr (lit "completed")) ]) ])
|}.

(** A response that carries its progress events under [events]. *)
Definition events_response : Index.Response := {|
  Index.status := 200;
  Index.statusText := lit "OK";
  Index.json := inr (JObj
    [ (lit "answer", JStr (lit "Quantum computing is..."));
      (lit "events", JArr
         [ JStr (lit "Generated 3 search queries");
           JObj [ (lit "message", JStr (lit "Searched 3 sources")) ] ]) ])
|}.

Definition failed_response : Index.Response := {|
  Index.status := 500;
  Index.statusText := lit "Internal Server Error";
  Index.json := inl (ErrorObject (lit "Unexpected end of JSON input"))
|}.

(** A 200 response whose body is not JSON. *)
Definition unparsable_response : Index.Response := {|
  Index.status := 200;
  Index.statusText := lit "OK";
  Index.json := inl (ErrorObject (lit "Unexpected token < in JSON at position 0"))
|}.

(** A 200 response whose body is the JSON text [null]. *)
Definition null_response : Index.Response := {|
  Index.status := 200;
  Index.statusText := lit "OK";
  Index.json := inr JNull
|}.

(** A page on which a timer of an earlier response is still pending: its
    second event, due at 300 ms. *)
Definition page_with_pending_timer : Index.World := {|
  Index.ui := {| Index.isLoading := false;
                 Index.error := None;
                 Index.timeline := [];
                 Index.answer := JStr (lit "An earlier answer");
                 Index.citations := JArr [] |};
  Index.timers := [ {| Index.due := 300; Index.index := 1;
                       Index.event := JStr (lit "Searched 3 sources") |} ];
  Index.now := 100;
  Index.toasts := [];
  Index.renderError := false
|}.

(** The page after [handleResearch(query)] met the given outcome 120 ms
    later, starting from a freshly mounted page. *)
Definition page_after (outcome : Index.FetchOutcome) : Index.World :=
  Index.handleResearch clock nullAccessMessage query 120 outcome
    Index.initial_world.

Definition ids (w : Index.World) : list jsstring :=
  map Index.id (Index.timeline (Index.ui w)).

Definition some_result : Pipeline.SearchResult := {|
  Pipeline.url := lit "https://example.com";
  Pipeline.title := lit "Quantum Computing Basics";
  Pipeline.snippet := lit "...";
  Pipeline.sourceProvider := lit "mock";
  Pipeline.fetchedAt := 0
|}.

End Samples.

(* ------------------------------------------------------------------------- *)
(** ** The components that render the page *)

(** [Array.prototype.map] with the element index. *)
Fixpoint map_indexed {A B : Type} (f : A -> nat -> B) (index : nat)
    (l : list A) : list B :=
  match l with
  | [] => []
  | x :: rest => f x index :: map_indexed f (S index) rest
  end.

(** [Timeline.tsx]. *)
Module TimelineTsx.
Import JS.

(** One rendered entry: its React key, whether the connecting line to the
    next entry is drawn, and the two texts shown. *)
Record Row : Type := {
  key : jsstring;
  connector : bool;
  time : jsstring;
  text : Json
}.

(** The component: [None] is [return null], otherwise the card with one row
    per event. *)
Definition Timeline (events : list Index.TimelineEvent) : option (list Row) :=
  match events with
  | [] => None
  | _ =>
      Some (map_indexed
              (fun event index =>
                 {| key := Index.id event;
                    connector :=
                      (Z.of_nat index <? Z.of_nat (List.length events) - 1)%Z;
                    time := Index.timestamp event;
                    text := Index.message event |})
              O events)
  end.

End TimelineTsx.

(** [AnswerPanel.tsx], on props of the declared types. *)
Module AnswerPanelTsx.
Import JS.

(** [interface Citation { url: string; title?: string }]. *)
Record Citation : Type := {
  url : jsstring;
  title : option jsstring
}.

(** One citation badge: the link target and the text shown. *)
Record Badge : Type := {
  key : nat;
  href : jsstring;
  label : jsstring
}.

(** The rendered card: the answer text and, when there are citations, the
    citation block. *)
Record Card : Type := {
  text : jsstring;
  badges : option (list Badge)
}.

(** [citation.title || `Source ${index + 1}`]. *)
Definition badge_label (citation : Citation) (index : nat) : jsstring :=
  match title citation with
  | Some t => if truthy_string t then t
              else lit "Source " ++ decimal (N.of_nat (index + 1))
  | None => lit "Source " ++ decimal (N.of_nat (index + 1))
  end.

(** The component: [None] is [return null]. *)
Definition AnswerPanel (answer : jsstring) (citations : list Citation)
    : option Card :=
  if negb (truthy_string answer) then None
  else Some {| text := answer;
               badges :=
                 if (0 <? List.length citations)%nat
                 then Some (map_indexed
                              (fun citation index =>
                                 {| key := index;
                                    href := url citation;
                                    label := badge_label citation index |})
                              O citations)
                 else None |}.

End AnswerPanelTsx.

(** [Header.tsx]. *)
Module HeaderTsx.
Import JS HealthCheck.

(** The status indicator: the colour class of the dot, its tooltip and the
    text beside it. *)
Record Indicator : Type := {
  dot : jsstring;
  tooltip : jsstring;
  caption : jsstring
}.

Definition indicator (healthStatus : HealthStatus) : Indicator :=
  match healthStatus with
  | online =>
      {| dot := lit "bg-green-500";
         tooltip := lit "Backend online";
         caption := lit "Connected" |}
  | offline =>
      {| dot := lit "bg-red-500";
         tooltip := lit "Backend offline";
         caption := lit "Disconnected" |}
  | checking =>
      {| dot := lit "bg-yellow-500 animate-pulse";
         tooltip := lit "Checking connection...";
         caption := lit "Checking..." |}
  end.

(** The component, after the polls that have settled so far. *)
Definition Header (polls : list Network) : Indicator :=
  indicator (useHealthCheck polls).

End HeaderTsx.

(** The conditional parts of the page ([Index.tsx], the JSX returned). *)
Module IndexView.
Import JS Index.

(** [{error && <Alert>...{error}...</Alert>}]: the text of the alert, when
    one is shown. *)
Definition alert (s : State) : option jsstring :=
  match error s with
  | Some e => if truthy_string e then Some e else None
  | None => None
  end.

(** [(timeline.length > 0 || answer)]: whether the results grid is shown. *)
Definition results_grid (s : State) : bool :=
  (0 <? List.length (timeline s))%nat || truthy (answer s).

(** What the form itself does with a submission while the page is in state
    [s]: [<ResearchForm onSubmit={handleResearch} isLoading={isLoading} />]. *)
Definition form_submit (s : State) (text : jsstring) : option jsstring :=
  ResearchForm.handleSubmit text (isLoading s).

(** The value is a string. *)
Definition is_text (v : Json) : bool :=
  match v with
  | JStr _ => true
  | _ => false
  end.

(** The value as a [Citation] of [AnswerPanel.tsx], [{ url: string; title?:
    string }]: an object whose [url] is a string and whose [title] is
    missing or a string. *)
Definition as_citation (v : Json) : option AnswerPanelTsx.Citation :=
  match v with
  | JObj members =>
      match lookup (lit "url") members, lookup (lit "title") members with
      | Some (JStr u), None =>
          Some {| AnswerPanelTsx.url := u; AnswerPanelTsx.title := None |}
      | Some (JStr u), Some (JStr t) =>
          Some {| AnswerPanelTsx.url := u; AnswerPanelTsx.title := Some t |}
      | _, _ => None
      end
  | _ => None
  end.

Fixpoint as_citation_list (items : list Json)
    : option (list AnswerPanelTsx.Citation) :=
  match items with
  | [] => Some []
  | v :: rest =>
      match as_citation v, as_citation_list rest with
      | Some c, Some cs => Some (c :: cs)
      | _, _ => None
      end
  end.

(** The value as [Citation[]]. *)
Definition as_citations (v : Json) : option (list AnswerPanelTsx.Citation) :=
  match v with
  | JArr items => as_citation_list items
  | _ => None
  end.

Definition is_citations (v : Json) : bool :=
  match as_citations v with
  | Some _ => true
  | None => false
  end.

(** What the page shows: the alert, and the results grid with the timeline
    card and the answer card side by side. *)
Record PageView : Type := {
  alertText : option jsstring;
  grid : option (option (list TimelineTsx.Row) * option AnswerPanelTsx.Card)
}.

(** The JSX returned by [Index], for a state whose values have the types that
    [Timeline] and [AnswerPanel] declare for their props: every timeline
    message and the answer are strings, the citations are a [Citation[]].
    [None] stands for a state outside these types: the children are then
    given values they are not written for (React throws for an object given
    as a child, a string has no [map]), the page can be unmounted, and
    nothing is said here about what it shows. *)
Definition render (s : State) : option PageView :=
  match answer s, as_citations (citations s) with
  | JStr a, Some cs =>
      if forallb (fun ev => is_text (message ev)) (timeline s)
      then Some {| alertText := alert s;
                   grid := if results_grid s
                           then Some (TimelineTsx.Timeline (timeline s),
                                      AnswerPanelTsx.AnswerPanel a cs)
                           else None |}
      else None
  | _, _ => None
  end.

(** The page is on screen: no state updater has thrown and the state can be
    rendered. *)
Definition mounted (w : World) : Prop :=
  renderError w = false /\ render (ui w) <> None.

(** The entry that the timer callback appends for the event has a string
    message, the declared type of [TimelineEvent.message]: the event is a
    string, or an object with a non-empty string [message]. *)
Definition event_shows_text (ev : Json) : bool :=
  match event_message ev with
  | Some (JStr _) => true
  | _ => false
  end.

(** The parsed body of a response has the types the page is written for:
    the answer it will show is a string, the citations it will store are a
    [Citation[]], and every element of an [events] array shows as text. *)
Definition well_typed_body (data : Json) : bool :=
  is_text (or_else (get data (lit "answer"))
                   (JStr (lit "No answer provided by the backend.")))
  && is_citations (or_else (get data (lit "citations")) (JArr []))
  && match get data (lit "events") with
     | Value (JArr items) => forallb event_shows_text items
     | _ => true
     end.

(** The same for a settled request: only the body of an ok response that
    parses reaches the page. *)
Definition well_typed (outcome : FetchOutcome) : bool :=
  match outcome with
  | Rejected _ => true
  | Fulfilled r =>
      if ok r
      then match json r with
           | inl _ => true
           | inr data => well_typed_body data
           end
      else true
  end.

(** The page is on screen and the timers still pending on it carry events
    that show as text. *)
Definition healthy (w : World) : Prop :=
  mounted w /\
  forallb (fun tm => event_shows_text (event tm)) (timers w) = true.

(** The state has the declared types. *)
Definition typed_state (s : State) : bool :=
  is_text (answer s) && is_citations (citations s)
  && forallb (fun ev => is_text (message ev)) (timeline s).

(** The page is on screen with a state of the declared types, and so are the
    events of its pending timers. *)
Definition sound (w : World) : Prop :=
  renderError w = false /\
  typed_state (ui w) = true /\
  forallb (fun tm => event_shows_text (event tm)) (timers w) = true.

(** The statement stores only values of the declared types. *)
Definition typed_effect (e : Effect) : bool :=
  match e with
  | setTimeline events => forallb (fun ev => is_text (message ev)) events
  | appendTimeline ev => is_text (message ev)
  | setAnswer a => is_text a
  | setCitations c => is_citations c
  | setTimeout _ ev _ => event_shows_text ev
  | setIsLoading _ | setError _ | toast _ => true
  end.

End IndexView.

(** The part of the page that timers never touch. *)
Module Surface.
Import JS Index.

Record Surface : Type := {
  loading : bool;
  failure : option jsstring;
  shown_answer : Json;
  shown_citations : Json;
  raised : list Toast
}.

Definition surface (w : World) : Surface := {|
  loading := isLoading (ui w);
  failure := error (ui w);
  shown_answer := answer (ui w);
  shown_citations := citations (ui w);
  raised := toasts w
|}.

(** The effect of one statement of the handler on that part. *)
Definition apply (s : Surface) (e : Effect) : Surface :=
  match e with
  | setIsLoading b =>
      {| loading := b; failure := failure s; shown_answer := shown_answer s;
         shown_citations := shown_citations s; raised := raised s |}
  | setError e' =>
      {| loading := loading s; failure := e'; shown_answer := shown_answer s;
         shown_citations := shown_citations s; raised := raised s |}
  | setAnswer a =>
      {| loading := loading s; failure := failure s; shown_answer := a;
         shown_citations := shown_citations s; raised := raised s |}
  | setCitations c =>
      {| loading := loading s; failure := failure s; shown_answer := shown_answer s;
         shown_citations := c; raised := raised s |}
  | toast t =>
      {| loading := loading s; failure := failure s; shown_answer := shown_answer s;
         shown_citations := shown_citations s; raised := raised s ++ [t] |}
  | setTimeline _ | appendTimeline _ | setTimeout _ _ _ => s
  end.

(** The page while the request is in flight: after the synchronous start of
    the handler and the wait for the response. *)
Definition in_flight (clock : N -> jsstring) (query : jsstring) (latency : N)
    (w : World) : World :=
  last (await_trace clock latency (run (handleResearch_begin clock query (now w)) w))
       (run (handleResearch_begin clock query (now w)) w).

(** The label of a timeline entry: its id and its message. *)
Definition label (ev : TimelineEvent) : jsstring * Json :=
  (id ev, message ev).



End Surface.

(* ========================================================================= *)
(** * Properties *)

(* ------------------------------------------------------------------------- *)
(** ** [trim] and the research form *)

Module FormFacts.
Import JS ResearchForm.

Lemma trimStart_split (s : jsstring) :
  exists pre, s = pre ++ trimStart s /\ forallb is_whitespace pre = true.
Proof.
  induction s as [|c t IH]; simpl.
  - exists []; split; reflexivity.
  - destruct (is_whitespace c) eqn:Hc.
    + destruct IH as [pre [Hs Hpre]].
      exists (c :: pre); simpl; rewrite Hc, Hpre; split; [congruence | reflexivity].
    + exists []; split; reflexivity.
Qed.

Lemma trimStart_head (s : jsstring) (c : N) (t : jsstring) :
  trimStart s = c :: t -> is_whitespace c = false.
Proof.
  induction s as [|a u IH]; simpl; [discriminate|].
  destruct (is_whitespace a) eqn:Ha; [exact IH|].
  intros H; injection H as -> _; exact Ha.
Qed.

Lemma trimEnd_split (s : jsstring) :
  exists post, s = trimEnd s ++ post /\ forallb is_whitespace post = true.
Proof.
  induction s as [|c t [post [Hs Hpost]]]; simpl.
  - exists []; split; reflexivity.
  - destruct (trimEnd t) as [|a u] eqn:Ht.
    + destruct (is_whitespace c) eqn:Hc.
      * exists (c :: post); simpl in *; rewrite Hc, Hpost; subst t; split; reflexivity.
      * exists post; simpl in *; subst t; split; [reflexivity | assumption].
    + exists post; split; [|assumption].
      simpl; f_equal; exact Hs.
Qed.

Lemma trimEnd_last (s : jsstring) :
  trimEnd s <> [] -> is_whitespace (last (trimEnd s) 0%N) = false.
Proof.
  induction s as [|c t IH]; simpl; [congruence|].
  destruct (trimEnd t) as [|a u] eqn:Ht.
  - destruct (is_whitespace c) eqn:Hc; [congruence | intros _; exact Hc].
  - intros _. change (last (c :: a :: u) 0%N) with (last (a :: u) 0%N).
    apply IH; discriminate.
Qed.

(** [trimEnd] leaves a first character that is not white space where it is. *)
Lemma trimEnd_head (c : N) (t : jsstring) :
  is_whitespace c = false -> hd 0%N (trimEnd (c :: t)) = c /\ trimEnd (c :: t) <> [].
Proof.
  intros Hc; simpl.
  destruct (trimEnd t); [rewrite Hc|]; split; simpl; congruence.
Qed.

Lemma trim_split (s : jsstring) :
  exists pre post,
    s = pre ++ trim s ++ post /\
    forallb is_whitespace pre = true /\ forallb is_whitespace post = true.
Proof.
  destruct (trimStart_split s) as [pre [Hs Hpre]].
  destruct (trimEnd_split (trimStart s)) as [post [Ht Hpost]].
  exists pre, post; unfold trim; repeat split; try assumption.
  rewrite <- Ht; exact Hs.
Qed.

Lemma trim_ends (s : jsstring) :
  trim s <> [] ->
  is_whitespace (hd 0%N (trim s)) = false /\
  is_whitespace (last (trim s) 0%N) = false.
Proof.
  unfold trim; intros Hne; split; [|apply trimEnd_last; exact Hne].
  destruct (trimStart s) as [|c t] eqn:Hs; [simpl in Hne; congruence|].
  pose proof (@trimStart_head s c t Hs) as Hc.
  destruct (@trimEnd_head c t Hc) as [-> _]; exact Hc.
Qed.

(** A string that is white space only trims to the empty string. *)
Lemma trim_blank (s : jsstring) :
  forallb is_whitespace s = true -> trim s = [].
Proof.
  unfold trim; induction s as [|c t IH]; simpl; [reflexivity|].
  destruct (is_whitespace c); simpl; [exact IH | discriminate].
Qed.

Example handleSubmit_padded :
  handleSubmit (lit "  What is AI? ") false = Some (lit "What is AI?").
Proof. reflexivity. Qed.

Example handleSubmit_blank :
  handleSubmit ([9; 32; 160; 10] ++ lit "  ")%N false = None.
Proof. reflexivity. Qed.

Example handleSubmit_loading :
  handleSubmit (lit "What is AI?") true = None.
Proof. reflexivity. Qed.

(** C8. [onSubmit] is called only with the entered text trimmed of leading
    and trailing white space, only when that is not empty, and only while no
    request is loading; a text that trims to the empty string is never
    submitted, and the submit button is disabled exactly when a submission
    would be dropped. *)
Theorem C8_onSubmit_trimmed_nonempty_idle (query : jsstring) (isLoading : bool) :
  (forall s, handleSubmit query isLoading = Some s ->
     s = trim query /\ s <> [] /\ isLoading = false /\
     (exists pre post,
        query = pre ++ s ++ post /\
        forallb is_whitespace pre = true /\ forallb is_whitespace post = true) /\
     is_whitespace (hd 0%N s) = false /\ is_whitespace (last s 0%N) = false) /\
  (trim query = [] -> handleSubmit query isLoading = None) /\
  (isLoading = true -> handleSubmit query isLoading = None) /\
  (submit_disabled query isLoading = true <-> handleSubmit query isLoading = None).
Proof.
  pose proof (trim_split query) as Hsplit.
  pose proof (@trim_ends query) as Hends.
  unfold handleSubmit, submit_disabled.
  destruct (trim query) as [|c t] eqn:Ht; destruct isLoading; simpl;
    (split; [intros s Hs | repeat split; congruence || discriminate]);
    try discriminate.
  injection Hs as <-.
  destruct Hends as [Hhd Hlast]; [discriminate|].
  repeat split; try assumption; discriminate.
Qed.

End FormFacts.

(* ------------------------------------------------------------------------- *)
(** ** The health poll *)

Module HealthFacts.
Import HealthCheck.

Lemma useHealthCheck_last (polls : list Network) (net : Network) :
  useHealthCheck (polls ++ [net]) = checkHealth net.
Proof.
  unfold useHealthCheck; rewrite fold_left_app; reflexivity.
Qed.

Lemma ok_range (st : N) : ok st = true <-> (200 <= st <= 299)%N.
Proof.
  unfold ok; rewrite andb_true_iff, !N.leb_le; tauto.
Qed.

(** A poll sets ["online"] or ["offline"], never ["checking"]. *)
Lemma checkHealth_settled (net : Network) :
  checkHealth net = online \/ checkHealth net = offline.
Proof.
  unfold checkHealth; destruct (fetch net) as [st|]; [destruct (ok st)|]; auto.
Qed.

Lemma checkHealth_online (net : Network) :
  checkHealth net = online <-> exists st, fetch net = Fulfilled st /\ ok st = true.
Proof.
  unfold checkHealth; destruct (fetch net) as [st|why]; split.
  - destruct (ok st) eqn:Hok; [eauto | discriminate].
  - intros [st' [Hst Hok]]; injection Hst as <-; rewrite Hok; reflexivity.
  - discriminate.
  - intros [st' [Hst _]]; discriminate.
Qed.

Lemma fetch_fulfilled (net : Network) (st : N) :
  fetch net = Fulfilled st <->
  exists l, net = Responds l st /\ (l < timeout_ms)%N.
Proof.
  destruct net as [l st'|l|]; simpl.
  - destruct (N.ltb_spec l timeout_ms) as [Hl|Hl]; split.
    + intros H; injection H as <-; eauto.
    + intros [l' [H _]]; injection H as <- <-; reflexivity.
    + discriminate.
    + intros [l' [H Hl']]; injection H as <- <-; lia.
  - destruct (l <? timeout_ms)%N; split; try discriminate;
      intros [l' [H _]]; discriminate.
  - split; [discriminate | intros [l' [H _]]; discriminate].
Qed.

Example poll_healthy : useHealthCheck [Fails 12; Responds 40 200] = online.
Proof. reflexivity. Qed.

Example poll_server_error : useHealthCheck [Responds 40 200; Responds 35 503] = offline.
Proof. reflexivity. Qed.

Example poll_slow : useHealthCheck [Responds 6000 200] = offline.
Proof. reflexivity. Qed.

Example poll_unreachable : useHealthCheck [Responds 40 200; Silent] = offline.
Proof. reflexivity. Qed.

(** C9. Before any poll has settled the hook reports ["checking"]; after a
    poll it reports ["online"] exactly when the request was answered before
    the 5000 ms abort with a status from 200 to 299, and ["offline"] in every
    other case: a status outside that range, a network failure, or the
    abort. *)
Theorem C9_health_status_after_poll (polls : list Network) (net : Network) :
  useHealthCheck [] = checking /\
  timeout_ms = 5000%N /\
  (useHealthCheck (polls ++ [net]) = online <->
     exists st, fetch net = Fulfilled st /\ ok st = true) /\
  (useHealthCheck (polls ++ [net]) = online <->
     exists l st, net = Responds l st /\ (l < 5000)%N /\ (200 <= st <= 299)%N) /\
  (useHealthCheck (polls ++ [net]) = offline <->
     ~ exists l st, net = Responds l st /\ (l < 5000)%N /\ (200 <= st <= 299)%N) /\
  (forall st, fetch net = Fulfilled st -> ok st = false ->
     useHealthCheck (polls ++ [net]) = offline) /\
  (forall why, fetch net = Rejected why ->
     useHealthCheck (polls ++ [net]) = offline).
Proof.
  rewrite useHealthCheck_last.
  assert (Hon : checkHealth net = online <->
            exists l st, net = Responds l st /\ (l < 5000)%N /\ (200 <= st <= 299)%N).
  { rewrite checkHealth_online; split.
    - intros [st [Hf Hok]]. apply fetch_fulfilled in Hf. destruct Hf as [l [-> Hl]].
      exists l, st; repeat split; try exact Hl; apply ok_range in Hok; lia.
    - intros [l [st [-> [Hl Hst]]]]. exists st; split.
      + apply fetch_fulfilled; eauto.
      + apply ok_range; exact Hst. }
  repeat split; try reflexivity.
  - apply checkHealth_online.
  - apply checkHealth_online.
  - apply Hon.
  - apply Hon.
  - intros Hoff Hex. apply Hon in Hex. congruence.
  - intros Hno. destruct (checkHealth_settled net) as [H|H]; [|exact H].
    exfalso; apply Hno, Hon, H.
  - intros st Hf Hok. unfold checkHealth; rewrite Hf, Hok; reflexivity.
  - intros why Hf. unfold checkHealth; rewrite Hf; reflexivity.
Qed.

End HealthFacts.

(* ------------------------------------------------------------------------- *)
(** ** The research page *)

Module IndexFacts.
Import JS Index.

(** *** Traces *)

Lemma last_cons (A : Type) (x d : A) (l : list A) : last (x :: l) d = last l x.
Proof.
  revert x d; induction l as [|y l IH]; intros x d; [reflexivity|].
  change (last (x :: y :: l) d) with (last (y :: l) d).
  rewrite (IH y d), (IH y x); reflexivity.
Qed.

Lemma last_append (A : Type) (l1 l2 : list A) (d : A) :
  last (l1 ++ l2) d = last l2 (last l1 d).
Proof.
  revert d; induction l1 as [|x l1 IH]; intros d; [reflexivity|].
  rewrite <- app_comm_cons, !last_cons. apply IH.
Qed.

Lemma stepwise_app (P : World -> World -> Prop) (l1 l2 : list World) (w : World) :
  stepwise P w l1 -> stepwise P (last l1 w) l2 -> stepwise P w (l1 ++ l2).
Proof.
  revert w; induction l1 as [|x l1 IH]; intros w H1 H2; [exact H2|].
  destruct H1 as [Hx H1]; split; [exact Hx|].
  apply IH; [exact H1|]. rewrite last_cons in H2; exact H2.
Qed.

Lemma stepwise_weaken (P Q : World -> World -> Prop) :
  (forall a b, P a b -> Q a b) ->
  forall ws w, stepwise P w ws -> stepwise Q w ws.
Proof.
  intros HPQ ws; induction ws as [|x ws IH]; intros w H; [exact I|].
  destruct H as [Hx H]; split; auto.
Qed.

Lemma stepwise_last (P : World -> World -> Prop) :
  (forall a, P a a) -> (forall a b c, P a b -> P b c -> P a c) ->
  forall ws w, stepwise P w ws -> P w (last ws w).
Proof.
  intros Hrefl Htrans ws; induction ws as [|x ws IH]; intros w H; [apply Hrefl|].
  destruct H as [Hx H]. rewrite last_cons. eapply Htrans; [exact Hx | apply IH, H].
Qed.

(** *** What a step may do to the page *)

Lemma extends_refl (w : World) : extends w w.
Proof. exists []; rewrite app_nil_r; reflexivity. Qed.

Lemma extends_trans (a b c : World) : extends a b -> extends b c -> extends a c.
Proof.
  intros [x Hx] [y Hy]; exists (x ++ y); rewrite Hy, Hx, app_assoc; reflexivity.
Qed.

Lemma only_appends_events_refl (w : World) : only_appends_events w w.
Proof.
  repeat split; exists []; rewrite app_nil_r; split; [reflexivity | constructor].
Qed.

Lemma only_appends_events_trans (a b c : World) :
  only_appends_events a b -> only_appends_events b c -> only_appends_events a c.
Proof.
  intros (H1 & H2 & H3 & H4 & x & Hx & Fx) (K1 & K2 & K3 & K4 & y & Hy & Fy).
  repeat split; try congruence.
  exists (x ++ y); split; [rewrite Hy, Hx, app_assoc; reflexivity|].
  apply Forall_app; split; assumption.
Qed.

Lemma only_appends_events_extends (a b : World) :
  only_appends_events a b -> extends a b.
Proof. intros (_ & _ & _ & _ & x & Hx & _); exists x; exact Hx. Qed.

Lemma perform_extends (e : Effect) (w : World) :
  keeps_entries e -> extends w (perform e w).
Proof.
  destruct e; simpl; intros H; try contradiction; unfold extends; simpl;
    first [ exists []; rewrite app_nil_r; reflexivity | eexists; reflexivity ].
Qed.

Lemma run_trace_extends (es : list Effect) :
  Forall keeps_entries es -> forall w, stepwise extends w (run_trace es w).
Proof.
  induction 1 as [|e es He _ IH]; intros w; simpl; [exact I|].
  split; [apply perform_extends, He | apply IH].
Qed.

Section Handler.
Variable clock : N -> jsstring.
Variable nullAccessMessage : jsstring.

Lemma timer_callback_appends (tm : Timer) (q : list Timer) (t : N) (w : World) :
  only_appends_events w (timer_callback clock tm (with_timers q (at_time t w))).
Proof.
  unfold timer_callback. destruct (event_message (event tm)) as [m|]; simpl.
  - repeat split. eexists; split; [reflexivity|]. repeat constructor.
  - repeat split. exists []; rewrite app_nil_r; split; [reflexivity | constructor].
Qed.

Lemma fire_trace_appends (limit : N) (q : list Timer) :
  forall w, stepwise only_appends_events w (fire_trace clock limit q w).
Proof.
  induction q as [|tm q IH]; intros w; simpl; [exact I|].
  destruct (due tm <=? limit)%N; [|exact I].
  split; [apply timer_callback_appends | apply IH].
Qed.

Lemma await_trace_appends (dt : N) (w : World) :
  stepwise only_appends_events w (await_trace clock dt w).
Proof.
  unfold await_trace. apply stepwise_app; [apply fire_trace_appends|].
  simpl; split; [|exact I]. repeat split.
  exists []; rewrite app_nil_r; split; [reflexivity | constructor].
Qed.

Lemma settle_trace_appends (w : World) :
  stepwise only_appends_events w (settle_trace clock w).
Proof. apply fire_trace_appends. Qed.

Lemma await_appends (dt : N) (w : World) :
  only_appends_events w (last (await_trace clock dt w) w).
Proof.
  apply (stepwise_last _ only_appends_events_refl only_appends_events_trans).
  apply await_trace_appends.
Qed.

Lemma settle_appends (w : World) :
  only_appends_events w (last (settle_trace clock w) w).
Proof.
  apply (stepwise_last _ only_appends_events_refl only_appends_events_trans).
  apply settle_trace_appends.
Qed.

Lemma schedule_events_keep (items : list Json) :
  forall idx, Forall keeps_entries (schedule_events idx items).
Proof.
  induction items as [|ev items IH]; intros idx; simpl; constructor; [exact I | apply IH].
Qed.

Lemma catch_block_keeps (err : Thrown) (t : N) :
  Forall keeps_entries (catch_block clock err t).
Proof. repeat constructor. Qed.

Lemma process_data_keeps (data : Json) (t : N) :
  Forall keeps_entries (process_data clock nullAccessMessage data t).
Proof.
  unfold process_data. constructor; [exact I|].
  destruct (get data (lit "events")) as [| |v].
  - apply catch_block_keeps.
  - repeat constructor.
  - apply Forall_app; split; [|repeat constructor].
    destruct v; try constructor. apply schedule_events_keep.
Qed.

(** After the start event no statement of the handler replaces the timeline. *)
Lemma handleResearch_resume_keeps (outcome : FetchOutcome) (t : N) :
  Forall keeps_entries (handleResearch_resume clock nullAccessMessage outcome t).
Proof.
  unfold handleResearch_resume. apply Forall_app; split; [|repeat constructor].
  destruct outcome as [err|r]; [apply catch_block_keeps|].
  destruct (negb (ok r)); [apply catch_block_keeps|].
  destruct (json r); [apply catch_block_keeps | apply process_data_keeps].
Qed.


(** *** Histories *)

Lemma stepwise_append_only (ws : list World) :
  forall w, stepwise extends w ws ->
  append_only (map (fun x => timeline (ui x)) (w :: ws)).
Proof.
  induction ws as [|x ws IH]; intros w H; [exact I|].
  destruct H as [Hx H]. split; [exact Hx | apply IH, H].
Qed.

Lemma append_only_tail (x : list TimelineEvent) (h : list (list TimelineEvent)) :
  append_only (x :: h) -> append_only h.
Proof. destruct h; [intros; exact I | intros [_ H]; exact H]. Qed.

Lemma append_only_from_head (h : list (list TimelineEvent)) :
  forall x, append_only (x :: h) ->
  forall j later, nth_error h j = Some later -> exists added, later = x ++ added.
Proof.
  induction h as [|y h IH]; intros x H j later Hj; [destruct j; discriminate|].
  destruct H as [[a Ha] H]. destruct j as [|j]; simpl in Hj.
  - injection Hj as <-. exists a; exact Ha.
  - destruct (IH y H j later Hj) as [b Hb].
    exists (a ++ b). rewrite Hb, Ha, app_assoc; reflexivity.
Qed.

(** In an append-only history every state extends every earlier one. *)
Lemma append_only_pairwise (h : list (list TimelineEvent)) :
  append_only h ->
  forall i j earlier later, (i <= j)%nat ->
    nth_error h i = Some earlier -> nth_error h j = Some later ->
    exists added, later = earlier ++ added.
Proof.
  induction h as [|x h IH]; intros H i j earlier later Hij Hi Hj.
  - destruct i; discriminate.
  - destruct i as [|i]; simpl in Hi.
    + injection Hi as <-. destruct j as [|j]; simpl in Hj.
      * injection Hj as <-. exists []; rewrite app_nil_r; reflexivity.
      * eapply append_only_from_head; eassumption.
    + destruct j as [|j]; [lia|]. simpl in Hj.
      apply (IH (append_only_tail _ _ H) i j); [lia | assumption | assumption].
Qed.

Lemma map_last (A B : Type) (f : A -> B) (l : list A) (d : A) :
  last (map f l) (f d) = f (last l d).
Proof.
  revert d; induction l as [|x l IH]; intros d; [reflexivity|].
  change (map f (x :: l)) with (f x :: map f l).
  rewrite !last_cons. apply IH.
Qed.

Lemma handleResearch_trace_stepwise (query : jsstring) (latency : N)
    (outcome : FetchOutcome) (w : World) :
  exists w1 rest,
    handleResearch_trace clock nullAccessMessage query latency outcome w = w1 :: rest /\
    w1 = run (handleResearch_begin clock query (now w)) w /\
    stepwise extends w1 rest.
Proof.
  eexists; eexists; split; [reflexivity|]; split; [reflexivity|].
  apply stepwise_app.
  { apply (stepwise_weaken _ _ only_appends_events_extends), await_trace_appends. }
  apply stepwise_app.
  { apply run_trace_extends, handleResearch_resume_keeps. }
  apply (stepwise_weaken _ _ only_appends_events_extends), settle_trace_appends.
Qed.

(** C7. From the emission of the start event until the last timer of the
    request has run, every update of the timeline state keeps all entries
    that were there, unchanged, at their positions and in their order, and
    only adds entries at the end; the start event stays first throughout. *)
Theorem C7_timeline_append_only (query : jsstring) (latency : N)
    (outcome : FetchOutcome) (w : World) :
  let history :=
    map (fun x => timeline (ui x))
        (handleResearch_trace clock nullAccessMessage query latency outcome w) in
  hd [] history = [start_event clock query (now w)] /\
  append_only history /\
  (forall i j earlier later, (i <= j)%nat ->
     nth_error history i = Some earlier -> nth_error history j = Some later ->
     exists added, later = earlier ++ added) /\
  (forall i later, nth_error history i = Some later ->
     exists added, later = start_event clock query (now w) :: added) /\
  last history [] =
    timeline (ui (handleResearch clock nullAccessMessage query latency outcome w)).
Proof.
  intros history.
  destruct (handleResearch_trace_stepwise query latency outcome w)
    as (w1 & rest & Htrace & Hw1 & Hsteps).
  assert (Hhd : hd [] history = [start_event clock query (now w)]).
  { subst history. rewrite Htrace, Hw1. reflexivity. }
  assert (Hao : append_only history).
  { subst history. rewrite Htrace. apply stepwise_append_only, Hsteps. }
  repeat split; try assumption.
  - apply append_only_pairwise, Hao.
  - intros i later Hi.
    assert (H0 : nth_error history 0 = Some [start_event clock query (now w)]).
    { subst history. rewrite Htrace, Hw1. reflexivity. }
    assert (H0i : (0 <= i)%nat) by lia.
    destruct (append_only_pairwise _ Hao _ _ _ _ H0i H0 Hi) as [added ->].
    exists added; reflexivity.
  - unfold handleResearch. subst history. rewrite Htrace.
    change (map (fun x => timeline (ui x)) (w1 :: rest))
      with (timeline (ui w1) :: map (fun x => timeline (ui x)) rest).
    rewrite !last_cons. apply (map_last _ _ (fun x => timeline (ui x))).
Qed.


(** *** A failed request *)

Lemma filter_no_error (l : list TimelineEvent) :
  Forall (fun ev => type ev = None) l -> filter is_error_event l = [].
Proof.
  induction 1 as [|ev l Hev _ IH]; [reflexivity|].
  simpl. unfold is_error_event at 1. rewrite Hev. exact IH.
Qed.

(** For a failed request the rest of the handler is the [catch] block
    followed by the [finally] block. *)
Lemma handleResearch_resume_failed (outcome : FetchOutcome) (t : N) :
  request_failed outcome = true ->
  exists err,
    errorMessage err = failure_message outcome /\
    handleResearch_resume clock nullAccessMessage outcome t =
      catch_block clock err t ++ finally_block.
Proof.
  destruct outcome as [err|r]; unfold request_failed, handleResearch_resume; intros H.
  - exists err; split; reflexivity.
  - rewrite H. eexists; split; [|reflexivity]. reflexivity.
Qed.

(** C10. When the request fails (the fetch rejects, or the response status
    is not ok) the page ends with the error message set, loading off, the
    answer and the citations still empty as cleared at the start, and a
    timeline that holds the start event and exactly one error entry; the only
    other entries are those that timers of earlier requests may have added,
    and on a page without pending timers the timeline is the start event
    followed by the error entry. *)
Theorem C10_failed_request_shows_error_only (query : jsstring) (latency : N)
    (outcome : FetchOutcome) (w : World) :
  request_failed outcome = true ->
  let w' := handleResearch clock nullAccessMessage query latency outcome w in
  error (ui w') = Some (failure_message outcome) /\
  answer (ui w') = JStr [] /\
  citations (ui w') = JArr [] /\
  isLoading (ui w') = false /\
  (exists t before after,
     timeline (ui w') =
       start_event clock query (now w) :: before ++
       error_event clock (failure_message outcome) t :: after /\
     Forall (fun ev => type ev = None) before /\
     Forall (fun ev => type ev = None) after) /\
  List.length (filter is_error_event (timeline (ui w'))) = 1%nat /\
  (timers w = [] ->
   timeline (ui w') =
     [ start_event clock query (now w);
       error_event clock (failure_message outcome) (now w + latency) ]).
Proof.
  intros Hfail. cbv zeta.
  pose (w1 := run (handleResearch_begin clock query (now w)) w).
  pose (w2 := last (await_trace clock latency w1) w1).
  destruct (handleResearch_resume_failed outcome (now w2) Hfail) as [err [Hmsg Hres]].
  pose (w3 := last (run_trace (catch_block clock err (now w2) ++ finally_block) w2) w2).
  assert (Hw' : handleResearch clock nullAccessMessage query latency outcome w =
                last (settle_trace clock w3) w3).
  { unfold handleResearch, handleResearch_trace; cbv zeta.
    rewrite last_cons, !last_append. fold w1. fold w2. rewrite Hres. reflexivity. }
  set (w' := handleResearch clock nullAccessMessage query latency outcome w) in *.
  pose proof (await_appends latency w1) as (A1 & A2 & A3 & A4 & before & Ab & Fb).
  fold w2 in A1, A2, A3, A4, Ab.
  pose proof (settle_appends w3) as (S1 & S2 & S3 & S4 & after & Sa & Fa).
  rewrite <- Hw' in S1, S2, S3, S4, Sa.
  assert (T3 : timeline (ui w3) =
               start_event clock query (now w) :: before ++
               [error_event clock (failure_message outcome) (now w2)]).
  { unfold w3; simpl. rewrite Ab, Hmsg. reflexivity. }
  assert (Tw' : timeline (ui w') =
               start_event clock query (now w) :: before ++
               error_event clock (failure_message outcome) (now w2) :: after).
  { rewrite Sa, T3. simpl. rewrite <- app_assoc. reflexivity. }
  repeat split.
  - rewrite S2. unfold w3; simpl. rewrite Hmsg. reflexivity.
  - rewrite S3. unfold w3; simpl. rewrite A3. reflexivity.
  - rewrite S4. unfold w3; simpl. rewrite A4. reflexivity.
  - rewrite S1. reflexivity.
  - exists (now w2), before, after. repeat split; assumption.
  - rewrite Tw'. simpl. rewrite filter_app. simpl.
    rewrite (filter_no_error before Fb), (filter_no_error after Fa). reflexivity.
  - intros Hq. rewrite Hw'. unfold w3, w2, w1. clear - Hq Hmsg.
    destruct w as [s q t ts re]; simpl in Hq; subst q.
    unfold await_trace, settle_trace; simpl. rewrite Hmsg. reflexivity.
Qed.

End Handler.

(** *** The request body *)

Example research_request_default_url :
  url (research_request None Samples.query) = lit "http://localhost:8000/api/research".
Proof. reflexivity. Qed.

(** The body of a request has no [source] member: it does not conform to the
    inbound request contract. *)
Lemma C1_request_body_without_source :
  ~ conforms_to_request_contract (body (research_request None Samples.query)).
Proof.
  intros (_ & [s Hs] & _). discriminate Hs.
Qed.

(** C1 (as the client implements it). The body sent to the research
    endpoint is the JSON object whose only member is [query], holding the
    submitted string; it has no [source] and no [maxIterations] member, so it
    carries the query of the inbound contract and nothing else.  The request
    is a POST to the research endpoint with a JSON content type. *)
Theorem C1_request_body_is_query_only (VITE_API_URL : option jsstring) (query : jsstring) :
  let request := research_request VITE_API_URL query in
  body request = JObj [(lit "query", JStr query)] /\
  get (body request) (lit "query") = Value (JStr query) /\
  get (body request) (lit "source") = Undefined /\
  get (body request) (lit "maxIterations") = Undefined /\
  ~ conforms_to_request_contract (body request) /\
  method request = lit "POST" /\
  url request = Api.API_BASE_URL VITE_API_URL ++ lit "/api/research" /\
  headers request = [(lit "Content-Type", lit "application/json")].
Proof.
  repeat split.
  intros (_ & [s Hs] & _). discriminate Hs.
Qed.

(** *** A failed request, on a concrete page *)

Lemma C10_failed_request_witness :
  request_failed (Fulfilled Samples.failed_response) = true /\
  error (ui (Samples.page_after (Fulfilled Samples.failed_response))) =
    Some (lit "Backend error: 500 Internal Server Error") /\
  answer (ui (Samples.page_after (Fulfilled Samples.failed_response))) = JStr [] /\
  citations (ui (Samples.page_after (Fulfilled Samples.failed_response))) = JArr [].
Proof.
  split; [reflexivity|].
  pose proof (C10_failed_request_shows_error_only
                Samples.clock Samples.nullAccessMessage Samples.query 120
                (Fulfilled Samples.failed_response) initial_world eq_refl)
    as (He & Ha & Hc & _).
  repeat split; assumption.
Defined.

Example rejected_fetch_timeline :
  Samples.ids (Samples.page_after (Rejected (ErrorObject (lit "Failed to fetch")))) =
    [lit "start"; lit "error"].
Proof. reflexivity. Qed.

(** *** Events of the response *)

Lemma run_app (es1 es2 : list Effect) (w : World) :
  run (es1 ++ es2) w = run es2 (run es1 w).
Proof.
  unfold run. revert w; induction es1 as [|e es1 IH]; intros w; [reflexivity|].
  change (run_trace ((e :: es1) ++ es2) w)
    with (perform e w :: run_trace (es1 ++ es2) (perform e w)).
  change (run_trace (e :: es1) w) with (perform e w :: run_trace es1 (perform e w)).
  rewrite !last_cons. apply IH.
Qed.

Lemma run_cons (e : Effect) (es : list Effect) (w : World) :
  run (e :: es) w = run es (perform e w).
Proof.
  unfold run.
  change (run_trace (e :: es) w) with (perform e w :: run_trace es (perform e w)).
  apply last_cons.
Qed.

(** Registering the timers changes nothing on the page. *)
Lemma run_schedule_events (items : list Json) :
  forall idx w,
    ui (run (schedule_events idx items) w) = ui w /\
    List.length (timers (run (schedule_events idx items) w)) =
      (List.length (timers w) + List.length items)%nat.
Proof.
  induction items as [|ev items IH]; intros idx w.
  - split; [reflexivity | unfold run; simpl; rewrite Nat.add_0_r; reflexivity].
  - simpl schedule_events. rewrite run_cons.
    destruct (IH (idx + 1)%N (perform (setTimeout idx ev (idx * 300)) w)) as [Hui Hlen].
    rewrite Hui, Hlen. split; [reflexivity|]. simpl.
    assert (Henq : forall tm q, List.length (enqueue tm q) = S (List.length q)).
    { intros tm q; induction q as [|x q IHq]; [reflexivity|]. simpl.
      destruct (due x <=? due tm)%N; simpl; [rewrite IHq|]; reflexivity. }
    rewrite Henq. lia.
Qed.

(** When the response has an [events] array, the synchronous part of the
    handler appends the processing entry and the completion entry, and only
    queues the events. *)
Lemma completion_appended_while_events_wait (clock : N -> jsstring)
    (nullAccessMessage : jsstring) (data : Json) (items : list Json) (t : N) (w : World) :
  get data (lit "events") = Value (JArr items) ->
  timeline (ui (run (process_data clock nullAccessMessage data t) w)) =
    timeline (ui w) ++ [processing_event clock t; complete_event clock t] /\
  List.length (timers (run (process_data clock nullAccessMessage data t) w)) =
    (List.length (timers w) + List.length items)%nat.
Proof.
  intros Hev. unfold process_data. rewrite Hev.
  rewrite run_cons, run_app.
  set (w1 := perform (appendTimeline (processing_event clock t)) w).
  destruct (run_schedule_events items 0%N w1) as [Hui Hlen].
  set (w2 := run (schedule_events 0 items) w1) in *.
  unfold run; simpl. rewrite Hui, Hlen. unfold w1; simpl.
  rewrite <- app_assoc. split; reflexivity.
Qed.

(** When the response has no [events] member, nothing of the response
    reaches the timeline. *)
Lemma no_events_member_no_timers (clock : N -> jsstring)
    (nullAccessMessage : jsstring) (data : Json) (t : N) :
  get data (lit "events") = Undefined ->
  process_data clock nullAccessMessage data t =
    [ appendTimeline (processing_event clock t);
      appendTimeline (complete_event clock t);
      setAnswer (or_else (get data (lit "answer"))
                         (JStr (lit "No answer provided by the backend.")));
      setCitations (or_else (get data (lit "citations")) (JArr []));
      toast (toast_success (lit "Research completed!")) ].
Proof. intros H; unfold process_data; rewrite H; reflexivity. Qed.

Section Events.
Variable clock : N -> jsstring.
Variable nullAccessMessage : jsstring.

Lemma enqueue_last (tm : Timer) (q : list Timer) :
  Forall (fun x => (due x <= due tm)%N) q -> enqueue tm q = q ++ [tm].
Proof.
  induction 1 as [|x q Hx _ IH]; [reflexivity|].
  simpl. apply N.leb_le in Hx. rewrite Hx, IH. reflexivity.
Qed.

Lemma event_timers_due (t : N) (items : list Json) :
  forall idx bound, (bound <= t + idx * 300)%N ->
  Forall (fun x => (bound <= due x)%N) (event_timers t idx items).
Proof.
  induction items as [|ev items IH]; intros idx bound Hb; simpl; constructor.
  - exact Hb.
  - apply IH. lia.
Qed.

(** [forEach] leaves the events in the timer queue, in the order of the
    array, and nothing else changes. *)
Lemma run_schedule_events_queue (items : list Json) :
  forall idx w,
    Forall (fun x => (due x <= now w + idx * 300)%N) (timers w) ->
    run (schedule_events idx items) w =
      with_timers (timers w ++ event_timers (now w) idx items) w.
Proof.
  induction items as [|ev items IH]; intros idx w Hq.
  - unfold run; simpl. rewrite app_nil_r. destruct w; reflexivity.
  - simpl schedule_events. rewrite run_cons.
    set (tm := {| due := now w + idx * 300; index := idx; event := ev |}).
    assert (Hp : perform (setTimeout idx ev (idx * 300)) w = with_timers (timers w ++ [tm]) w).
    { unfold perform. fold tm. rewrite (enqueue_last tm (timers w) Hq). reflexivity. }
    rewrite Hp, IH.
    + unfold with_timers; simpl. rewrite <- app_assoc. reflexivity.
    + simpl. apply Forall_app; split.
      * eapply Forall_impl; [|exact Hq]. simpl; intros; lia.
      * repeat constructor; simpl; lia.
Qed.

Lemma event_message_or_else (ev : Json) :
  ev <> JNull -> event_message ev = Some (or_else (get ev (lit "message")) ev).
Proof.
  intros Hnn. unfold event_message, or_else.
  destruct (get ev (lit "message")) as [| |m] eqn:Hg.
  - destruct ev; simpl in Hg; try discriminate; try congruence.
    destruct (lookup (lit "message") members); discriminate.
  - reflexivity.
  - destruct (truthy m); reflexivity.
Qed.

(** The timers of one response, run in order, append their entries in the
    order of the array. *)
Lemma fire_event_timers (t limit : N) (items : list Json) :
  forall idx w,
    (now w <= t + idx * 300)%N ->
    Forall (fun x => (due x <= limit)%N) (event_timers t idx items) ->
    Forall (fun ev => ev <> JNull) items ->
    timeline (ui (last (fire_trace clock limit (event_timers t idx items) w) w)) =
      timeline (ui w) ++ event_entries clock t idx items.
Proof.
  induction items as [|ev items IH]; intros idx w Hnow Hdue Hnn.
  - simpl. rewrite app_nil_r. reflexivity.
  - inversion Hdue as [|x q Hx Hq]; subst. inversion Hnn as [|y l Hy Hl]; subst.
    simpl in Hx. simpl event_timers. simpl fire_trace.
    apply N.leb_le in Hx. rewrite Hx. rewrite last_cons.
    rewrite IH; try assumption.
    + unfold timer_callback; simpl. rewrite (event_message_or_else ev Hy); simpl.
      rewrite <- app_assoc. simpl. rewrite N.max_r by exact Hnow. reflexivity.
    + unfold timer_callback; simpl. rewrite (event_message_or_else ev Hy); simpl.
      lia.
Qed.

Lemma due_below_latest (d : N) (q : list Timer) :
  Forall (fun x => (due x <= fold_right N.max d (map due q))%N) q.
Proof.
  induction q as [|x q IH]; constructor; simpl.
  - lia.
  - eapply Forall_impl; [|exact IH]. simpl; intros; lia.
Qed.

(** On a page without pending timers, a successful response whose [events]
    member is an array (without [null] elements) ends with the timeline:
    start, processing, completion, and then the events of the response, one
    entry per element, in the order of the array. *)
Theorem backend_events_follow_completion (query : jsstring) (latency : N)
    (r : Response) (data : Json) (items : list Json) (w : World) :
  timers w = [] ->
  ok r = true ->
  json r = inr data ->
  get data (lit "events") = Value (JArr items) ->
  Forall (fun ev => ev <> JNull) items ->
  timeline (ui (handleResearch clock nullAccessMessage query latency (Fulfilled r) w)) =
    [ start_event clock query (now w);
      processing_event clock (now w + latency);
      complete_event clock (now w + latency) ]
    ++ event_entries clock (now w + latency) 0 items.
Proof.
  intros Hq Hok Hjson Hev Hnn.
  unfold handleResearch, handleResearch_trace; cbv zeta.
  rewrite last_cons, !last_append.
  set (w1 := run (handleResearch_begin clock query (now w)) w).
  assert (Hw2 : last (await_trace clock latency w1) w1 = at_time (now w + latency) w1).
  { unfold await_trace, w1. destruct w as [s q t ts re]; simpl in Hq; subst q. reflexivity. }
  rewrite Hw2. set (w2 := at_time (now w + latency) w1).
  assert (Hres : handleResearch_resume clock nullAccessMessage (Fulfilled r) (now w2) =
                 appendTimeline (processing_event clock (now w2)) ::
                 schedule_events 0 items ++
                 [ appendTimeline (complete_event clock (now w2));
                   setAnswer (or_else (get data (lit "answer"))
                                (JStr (lit "No answer provided by the backend.")));
                   setCitations (or_else (get data (lit "citations")) (JArr []));
                   toast (toast_success (lit "Research completed!"));
                   setIsLoading false ]).
  { unfold handleResearch_resume, process_data. rewrite Hok, Hjson, Hev. simpl.
    rewrite <- app_assoc. reflexivity. }
  rewrite Hres. fold (run (appendTimeline (processing_event clock (now w2)) ::
                           schedule_events 0 items ++
                           [ appendTimeline (complete_event clock (now w2));
                             setAnswer (or_else (get data (lit "answer"))
                                (JStr (lit "No answer provided by the backend.")));
                             setCitations (or_else (get data (lit "citations")) (JArr []));
                             toast (toast_success (lit "Research completed!"));
                             setIsLoading false ]) w2).
  rewrite run_cons, run_app.
  set (w2' := perform (appendTimeline (processing_event clock (now w2))) w2).
  assert (Hq2 : timers w2' = []).
  { unfold w2', w2, w1. destruct w as [s q t ts re]; simpl in Hq; subst q. reflexivity. }
  rewrite run_schedule_events_queue by (rewrite Hq2; constructor).
  rewrite Hq2. simpl app at 1.
  set (w3 := run _ _).
  assert (Ht3 : timers w3 = event_timers (now w + latency) 0 items).
  { unfold w3, run; simpl. reflexivity. }
  assert (Hn3 : now w3 = (now w + latency)%N).
  { unfold w3, run; simpl. reflexivity. }
  assert (Hl3 : timeline (ui w3) =
                [ start_event clock query (now w);
                  processing_event clock (now w + latency);
                  complete_event clock (now w + latency) ]).
  { unfold w3, run; simpl. reflexivity. }
  unfold settle_trace. rewrite Ht3.
  rewrite fire_event_timers; try assumption.
  - rewrite Hl3. reflexivity.
  - rewrite Hn3. lia.
  - rewrite <- Ht3. apply due_below_latest.
Qed.

End Events.

(** C2 (what the handler does with a response in the documented format).
    The response carries two entries under [timeline]; the handler reads
    [events], finds none, and the page ends with the three entries of its
    own and no pending timer. *)
Theorem C2_contract_timeline_not_shown :
  (exists data a b,
     json Samples.contract_response = inr data /\
     get data (lit "timeline") = Value (JArr [a; b]) /\
     get data (lit "events") = Undefined) /\
  ok Samples.contract_response = true /\
  Samples.ids (Samples.page_after (Fulfilled Samples.contract_response)) =
    [lit "start"; lit "processing"; lit "complete"] /\
  timers (Samples.page_after (Fulfilled Samples.contract_response)) = [] /\
  error (ui (Samples.page_after (Fulfilled Samples.contract_response))) = None.
Proof.
  split; [|repeat split].
  eexists; eexists; eexists; repeat split.
Qed.

(** C3 (what the handler does with a response that has events).  The
    completion entry is appended before the first event of the response:
    the events are appended by timers, which run after the handler. *)
Theorem C3_completion_precedes_backend_events :
  Samples.ids (Samples.page_after (Fulfilled Samples.events_response)) =
    [lit "start"; lit "processing"; lit "complete"; lit "event-0"; lit "event-1"] /\
  map message (timeline (ui (Samples.page_after (Fulfilled Samples.events_response)))) =
    [ JStr (lit "Started research for: " ++ dquote ++ Samples.query ++ dquote);
      JStr (lit "Processing research data...");
      JStr (lit "Research completed successfully");
      JStr (lit "Generated 3 search queries");
      JStr (lit "Searched 3 sources") ] /\
  map timestamp (timeline (ui (Samples.page_after (Fulfilled Samples.events_response)))) =
    [lit "0"; lit "120"; lit "120"; lit "120"; lit "420"].
Proof. repeat split. Qed.

End IndexFacts.

(* ------------------------------------------------------------------------- *)
(** ** The research pipeline *)

Module PipelineFacts.
Import Pipeline.

(** *** Retries of the search connector *)

Lemma attempt_retry (p : Provider) (jitter : nat -> N) (n rest : nat) :
  p n = RateLimited \/ p n = ProviderError transient ->
  attempt p jitter n (S rest) =
    match rest with
    | O => {| returned := inr transient; calls := 1; pauses := [] |}
    | S _ => {| returned := returned (attempt p jitter (S n) rest);
                calls := S (calls (attempt p jitter (S n) rest));
                pauses := backoff jitter n :: pauses (attempt p jitter (S n) rest) |}
    end.
Proof. intros [H|H]; simpl; rewrite H; reflexivity. Qed.

Lemma attempt_ok_final (p : Provider) (jitter : nat -> N) (n rest : nat)
    (out : list SearchResult + ErrorKind) :
  (forall rs, out = inl rs -> p n = Results rs) ->
  p n <> RateLimited ->
  (out = inr transient -> rest = O) ->
  attempt_ok p jitter n (S rest) {| returned := out; calls := 1; pauses := [] |}.
Proof.
  intros Hres Hrl Htr. unfold attempt_ok; simpl.
  split; [lia|]. split; [|split; [|split; [reflexivity|]]].
  - intros k Hk Hp. assert (k = 0)%nat by lia; subst k.
    rewrite Nat.add_0_r in Hp; contradiction.
  - intros Ht. rewrite (Htr Ht); reflexivity.
  - intros rs Hrs. rewrite Nat.add_0_r. apply Hres, Hrs.
Qed.

Lemma attempt_ok_exhausted (p : Provider) (jitter : nat -> N) (n : nat) :
  attempt_ok p jitter n 1 {| returned := inr transient; calls := 1; pauses := [] |}.
Proof.
  unfold attempt_ok; simpl.
  split; [lia|]. split; [|split; [|split; [reflexivity|]]].
  - intros k Hk _ Hb; lia.
  - reflexivity.
  - intros rs Hrs; discriminate.
Qed.

Lemma attempt_ok_retried (p : Provider) (jitter : nat -> N) (n rest : nat)
    (r : Searched) :
  attempt_ok p jitter (S n) (S rest) r ->
  attempt_ok p jitter n (S (S rest))
    {| returned := returned r; calls := S (calls r);
       pauses := backoff jitter n :: pauses r |}.
Proof.
  intros (Hle & Hre & Hex & Hpa & Hres). unfold attempt_ok; simpl.
  assert (Hc : (0 < calls r <= S rest)%nat) by (apply Hle; lia).
  split; [lia|]. split; [|split; [|split]].
  - intros k Hk Hp Hb. destruct k as [|k]; [lia|].
    assert (k + 1 < calls r)%nat; [|lia].
    apply Hre; try lia. rewrite <- Hp; f_equal; lia.
  - intros Ht. rewrite Hex; [reflexivity | exact Ht].
  - rewrite Hpa, Nat.sub_0_r.
    destruct (calls r) as [|c]; [lia|].
    simpl. rewrite Nat.sub_0_r. reflexivity.
  - intros rs Hrs. rewrite Nat.sub_0_r. rewrite <- (Hres rs Hrs); f_equal; lia.
Qed.

Lemma attempt_spec (p : Provider) (jitter : nat -> N) (budget : nat) :
  forall n, attempt_ok p jitter n budget (attempt p jitter n budget).
Proof.
  induction budget as [|rest IH]; intros n.
  - unfold attempt_ok; simpl.
    split; [lia|]. split; [intros; lia|]. split; [reflexivity|].
    split; [reflexivity | discriminate].
  - destruct (p n) as [rs| |[|]] eqn:Hp.
    + replace (attempt p jitter n (S rest))
        with {| returned := inl rs; calls := 1; pauses := [] |}
        by (simpl; rewrite Hp; reflexivity).
      apply attempt_ok_final; [| congruence | discriminate].
      intros rs' H; injection H as <-; exact Hp.
    + rewrite (attempt_retry p jitter n rest (or_introl Hp)).
      destruct rest; [apply attempt_ok_exhausted | apply attempt_ok_retried, IH].
    + rewrite (attempt_retry p jitter n rest (or_intror Hp)).
      destruct rest; [apply attempt_ok_exhausted | apply attempt_ok_retried, IH].
    + replace (attempt p jitter n (S rest))
        with {| returned := inr permanent; calls := 1; pauses := [] |}
        by (simpl; rewrite Hp; reflexivity).
      apply attempt_ok_final; [discriminate | congruence | discriminate].
Qed.

Example search_first_try :
  calls (search (fun _ => Results [Samples.some_result]) (fun _ => 0%N)) = 1%nat.
Proof. reflexivity. Qed.

Example search_always_limited :
  returned (search (fun _ => RateLimited) (fun _ => 0%N)) = inr transient /\
  calls (search (fun _ => RateLimited) (fun _ => 0%N)) = 3%nat.
Proof. split; reflexivity. Qed.

Example search_permanent_error :
  returned (search (fun _ => ProviderError permanent) (fun _ => 0%N)) = inr permanent /\
  calls (search (fun _ => ProviderError permanent) (fun _ => 0%N)) = 1%nat.
Proof. split; reflexivity. Qed.

(** C6. On a [RateLimited] signal the search call is repeated, after a
    pause that doubles from one retry to the next (plus jitter), with at most
    3 provider calls in all; the transient error reaches the caller only
    when all 3 calls were spent; a result handed to the caller is the reply
    of the last call.  For the provider that answers [RateLimited] twice and
    then succeeds, exactly 3 calls are made and its result is returned. *)
Theorem C6_rate_limit_retried_within_three_attempts
    (p : Provider) (jitter : nat -> N) :
  (calls (search p jitter) <= 3)%nat /\
  (forall k, (k < calls (search p jitter))%nat -> p k = RateLimited ->
             (k + 1 < 3)%nat -> (k + 1 < calls (search p jitter))%nat) /\
  (returned (search p jitter) = inr transient -> calls (search p jitter) = 3%nat) /\
  pauses (search p jitter) =
    map (fun n => (2 ^ N.of_nat n + jitter n)%N) (seq 0 (calls (search p jitter) - 1)) /\
  (forall rs, returned (search p jitter) = inl rs ->
              p (calls (search p jitter) - 1)%nat = Results rs) /\
  (forall rs,
     calls (search (rate_limited_twice rs) jitter) = 3%nat /\
     returned (search (rate_limited_twice rs) jitter) = inl rs /\
     pauses (search (rate_limited_twice rs) jitter) =
       [(1 + jitter 0%nat)%N; (2 + jitter 1%nat)%N]).
Proof.
  destruct (attempt_spec p jitter max_attempts 0) as (Hle & Hre & Hex & Hpa & Hres).
  fold (search p jitter) in *.
  split; [apply Hle; unfold max_attempts; lia|].
  split; [intros k Hk Hrl Hb; apply Hre; assumption|].
  split; [exact Hex|].
  split; [exact Hpa|].
  split; [exact Hres|].
  intros rs. repeat split.
Qed.

(** *** The reflection controller *)





Example scenario_A :
  iterationsUsed
    (run_controller {| maxIterations := 3; threshold := default_threshold |}
       [Started; SearchCompleted; Verdict (9 # 10); Synthesized]) = 1%N.
Proof. reflexivity. Qed.

Example scenario_B :
  iterationsUsed
    (run_controller {| maxIterations := 3; threshold := default_threshold |}
       [Started; SearchCompleted; Verdict 0; SearchCompleted; Verdict 0;
        SearchCompleted; Verdict 0; Synthesized]) = 3%N.
Proof. reflexivity. Qed.

Example no_budget_no_search :
  run_controller {| maxIterations := 0; threshold := default_threshold |}
    [Started; SearchCompleted; Verdict 0; Synthesized] =
  {| phase := DONE; iterationIndex := 0; iterationsUsed := 0 |}.
Proof. reflexivity. Qed.


End PipelineFacts.

(* ------------------------------------------------------------------------- *)
(** ** More on [trim] and the form *)

Module TrimFacts.
Import JS ResearchForm.

Lemma trimStart_fixed (s : jsstring) :
  is_whitespace (hd 0%N s) = false -> trimStart s = s.
Proof.
  destruct s as [|c t]; simpl; [reflexivity|].
  intros Hc; rewrite Hc; reflexivity.
Qed.

Lemma trimEnd_idempotent (s : jsstring) : trimEnd (trimEnd s) = trimEnd s.
Proof.
  induction s as [|c t IH]; [reflexivity|].
  simpl. destruct (trimEnd t) as [|a u] eqn:Ht.
  - destruct (is_whitespace c) eqn:Hc; [reflexivity|].
    simpl. rewrite Hc. reflexivity.
  - change (trimEnd (c :: a :: u))
      with (match trimEnd (a :: u) with
            | [] => if is_whitespace c then [] else [c]
            | t' => c :: t'
            end).
    rewrite IH. reflexivity.
Qed.

Lemma trim_idempotent (s : jsstring) : trim (trim s) = trim s.
Proof.
  destruct (trim s) as [|c t] eqn:Hs; [reflexivity|].
  assert (Hne : trim s <> []) by (rewrite Hs; discriminate).
  destruct (FormFacts.trim_ends s Hne) as [Hhd _].
  rewrite <- Hs. unfold trim at 1.
  rewrite (trimStart_fixed (trim s) Hhd).
  unfold trim. apply trimEnd_idempotent.
Qed.

Lemma trim_length (s : jsstring) : (List.length (trim s) <= List.length s)%nat.
Proof.
  destruct (FormFacts.trim_split s) as (pre & post & Hs & _ & _).
  rewrite Hs at 2. rewrite !length_app. lia.
Qed.

(** X1. The form is stable under trimming: the text handed to [onSubmit] is a
    fixed point of [trim] and never longer than the entered text, the form
    treats the entered text and its trimmed form alike, and a submitted text
    entered again is submitted unchanged. *)
Theorem handleSubmit_stable_under_trim (query : jsstring) (isLoading : bool) :
  trim (trim query) = trim query /\
  (List.length (trim query) <= List.length query)%nat /\
  handleSubmit (trim query) isLoading = handleSubmit query isLoading /\
  submit_disabled (trim query) isLoading = submit_disabled query isLoading /\
  (forall s, handleSubmit query isLoading = Some s ->
             handleSubmit s isLoading = Some s).
Proof.
  pose proof (trim_idempotent query) as Hidem.
  split; [exact Hidem|]. split; [apply trim_length|].
  unfold handleSubmit, submit_disabled. rewrite Hidem.
  split; [reflexivity|]. split; [reflexivity|].
  intros s Hs.
  destruct (truthy_string (trim query) && negb isLoading) eqn:Hg; [|discriminate].
  injection Hs as <-. rewrite Hidem, Hg. reflexivity.
Qed.

End TrimFacts.

(* ------------------------------------------------------------------------- *)
(** ** The endpoint table *)

Module ApiFacts.
Import JS Api.

Lemma API_BASE_URL_cases (env : option jsstring) :
  (exists u, env = Some u /\ u <> [] /\ API_BASE_URL env = u) \/
  ((env = None \/ env = Some []) /\ API_BASE_URL env = lit "http://localhost:8000").
Proof.
  destruct env as [[|c u]|]; simpl.
  - right; split; [right|]; reflexivity.
  - left; exists (c :: u); repeat split; discriminate.
  - right; split; [left|]; reflexivity.
Qed.

(** X2. The base URL is never empty: an undefined or empty [VITE_API_URL] gives
    the local default, any other value is taken as it is.  The three
    endpoints are the base followed by their paths, they are pairwise
    different, the health check uses the health endpoint, and the research
    request goes to the research endpoint. *)
Theorem endpoints_well_formed (env : option jsstring) :
  API_BASE_URL env <> [] /\
  (env = None \/ env = Some [] -> API_BASE_URL env = lit "http://localhost:8000") /\
  (forall u, env = Some u -> u <> [] -> API_BASE_URL env = u) /\
  health (API_ENDPOINTS env) <> status (API_ENDPOINTS env) /\
  health (API_ENDPOINTS env) <> research (API_ENDPOINTS env) /\
  status (API_ENDPOINTS env) <> research (API_ENDPOINTS env) /\
  HEALTH_CHECK_ENDPOINT env = API_BASE_URL env ++ lit "/api/health" /\
  (forall query, Index.url (Index.research_request env query) =
                 API_BASE_URL env ++ lit "/api/research").
Proof.
  split.
  { destruct (API_BASE_URL_cases env) as [(u & _ & Hu & ->)|[_ ->]];
      [exact Hu | discriminate]. }
  split.
  { intros H. destruct (API_BASE_URL_cases env) as [(u & -> & Hu & _)|[_ Hd]];
      [|exact Hd].
    destruct H as [H|H]; [discriminate | injection H as ->; contradiction]. }
  split.
  { intros u -> Hu. destruct u; [contradiction | reflexivity]. }
  unfold HEALTH_CHECK_ENDPOINT, API_ENDPOINTS; simpl.
  repeat split; try (intros H; apply app_inv_head in H; discriminate H).
Qed.

End ApiFacts.

(* ------------------------------------------------------------------------- *)
(** ** The rendering components *)

Module ComponentFacts.
Import JS.

Lemma map_indexed_length (A B : Type) (f : A -> nat -> B) (l : list A) :
  forall k, List.length (map_indexed f k l) = List.length l.
Proof.
  induction l as [|x l IH]; intros k; simpl; [reflexivity | rewrite IH; reflexivity].
Qed.

Lemma map_indexed_nth (A B : Type) (f : A -> nat -> B) (l : list A) :
  forall k i,
    nth_error (map_indexed f k l) i =
    option_map (fun x => f x (k + i)%nat) (nth_error l i).
Proof.
  induction l as [|x l IH]; intros k i.
  - destruct i; reflexivity.
  - destruct i as [|i]; simpl.
    + rewrite Nat.add_0_r. reflexivity.
    + rewrite IH. replace (S k + i)%nat with (k + S i)%nat by lia. reflexivity.
Qed.

Lemma map_indexed_map (A B C : Type) (f : A -> nat -> B) (g : B -> C) (h : A -> C)
    (l : list A) :
  (forall x i, g (f x i) = h x) ->
  forall k, map g (map_indexed f k l) = map h l.
Proof.
  intros Hgh. induction l as [|x l IH]; intros k; simpl; [reflexivity|].
  rewrite Hgh, IH. reflexivity.
Qed.

(** *** [Timeline] *)

Import TimelineTsx.

Lemma Timeline_keys (events : list Index.TimelineEvent) (rows : list Row) :
  Timeline events = Some rows ->
  map key rows = map Index.id events /\
  List.length rows = List.length events.
Proof.
  intros Hrows.
  assert (Hr : rows =
    map_indexed
      (fun event index =>
         {| key := Index.id event;
            connector := (Z.of_nat index <? Z.of_nat (List.length events) - 1)%Z;
            time := Index.timestamp event;
            text := Index.message event |}) O events).
  { destruct events; simpl in Hrows; [discriminate|]. injection Hrows as <-. reflexivity. }
  subst rows. split; [apply map_indexed_map; reflexivity | apply map_indexed_length].
Qed.

(** X3. The timeline card is left out exactly for an empty list of events.
    Otherwise it has one row per event, in order, keyed by the event id and
    showing its time stamp and message; the connecting line is drawn below
    every row but the last. *)
Theorem Timeline_rows (events : list Index.TimelineEvent) :
  (Timeline events = None <-> events = []) /\
  (forall rows, Timeline events = Some rows ->
     List.length rows = List.length events /\
     map key rows = map Index.id events /\
     map time rows = map Index.timestamp events /\
     map text rows = map Index.message events /\
     (forall i row, nth_error rows i = Some row ->
        (connector row = true <-> (S i < List.length events)%nat))).
Proof.
  split.
  { destruct events; simpl; split; intros H; congruence || discriminate. }
  intros rows Hrows.
  assert (Hr : rows =
    map_indexed
      (fun event index =>
         {| key := Index.id event;
            connector := (Z.of_nat index <? Z.of_nat (List.length events) - 1)%Z;
            time := Index.timestamp event;
            text := Index.message event |}) O events).
  { destruct events; simpl in Hrows; [discriminate|]. injection Hrows as <-. reflexivity. }
  clear Hrows. subst rows.
  split; [apply map_indexed_length|].
  split; [apply map_indexed_map; reflexivity|].
  split; [apply map_indexed_map; reflexivity|].
  split; [apply map_indexed_map; reflexivity|].
  intros i row Hi. rewrite map_indexed_nth in Hi.
  destruct (nth_error events i) as [ev|]; [|discriminate].
  simpl in Hi. injection Hi as <-. simpl.
  rewrite Z.ltb_lt. lia.
Qed.

(** *** [AnswerPanel] *)

Import AnswerPanelTsx.

Lemma badge_label_nonempty (c : Citation) (i : nat) : badge_label c i <> [].
Proof.
  unfold badge_label. destruct (title c) as [[|a t]|]; simpl; discriminate.
Qed.

(** X4. The answer card is left out exactly for an empty answer, whatever the
    citations.  Otherwise it shows the answer; the citation block is left out
    exactly for an empty list of citations, and has one badge per citation,
    in order, linking to the citation's url.  A badge shows the title when
    there is a non-empty one and [Source n] otherwise, [n] counting from 1;
    no badge has an empty label. *)
Theorem AnswerPanel_card (answer : jsstring) (citations : list Citation) :
  (AnswerPanel answer citations = None <-> answer = []) /\
  (forall card, AnswerPanel answer citations = Some card ->
     AnswerPanelTsx.text card = answer /\
     (badges card = None <-> citations = []) /\
     (forall bs, badges card = Some bs ->
        List.length bs = List.length citations /\
        map href bs = map url citations /\
        Forall (fun b => label b <> []) bs /\
        (forall i c, nth_error citations i = Some c ->
           exists b, nth_error bs i = Some b /\
             AnswerPanelTsx.key b = i /\
             href b = url c /\
             (forall t, title c = Some t -> t <> [] -> label b = t) /\
             (title c = None \/ title c = Some [] ->
              label b = lit "Source " ++ decimal (N.of_nat (i + 1)))))).
Proof.
  unfold AnswerPanel. destruct answer as [|a rest]; simpl.
  { split; [split; reflexivity | intros card H; discriminate]. }
  split; [split; intros H; discriminate|].
  intros card H. injection H as <-. simpl.
  split; [reflexivity|].
  destruct citations as [|c0 cs]; simpl.
  { split; [split; reflexivity | intros bs H; discriminate]. }
  split; [split; intros H; discriminate|].
  intros bs H. injection H as <-.
  set (f := fun citation index =>
              {| AnswerPanelTsx.key := index; href := url citation;
                 label := badge_label citation index |}).
  change (_ :: map_indexed f 1 cs) with (map_indexed f O (c0 :: cs)).
  split; [apply map_indexed_length|].
  split; [exact (map_indexed_map _ _ _ f href url (c0 :: cs) (fun _ _ => eq_refl) O)|].
  split.
  { apply Forall_forall. intros b Hb. apply In_nth_error in Hb. destruct Hb as [i Hi].
    rewrite map_indexed_nth in Hi.
    destruct (nth_error (c0 :: cs) i) as [c|]; [|discriminate].
    simpl in Hi. injection Hi as <-. apply badge_label_nonempty. }
  intros i c Hi. rewrite map_indexed_nth, Hi. simpl.
  eexists; split; [reflexivity|]. simpl.
  split; [reflexivity|]. split; [reflexivity|]. unfold badge_label. split.
  - intros t -> Ht. destruct t; [contradiction | reflexivity].
  - intros [->| ->]; reflexivity.
Qed.

(** *** [Header] *)

Import HealthCheck HeaderTsx.

Lemma indicator_caption (h : HealthStatus) :
  (caption (indicator h) = lit "Connected" <-> h = online) /\
  (caption (indicator h) = lit "Disconnected" <-> h = offline) /\
  (caption (indicator h) = lit "Checking..." <-> h = checking) /\
  (dot (indicator h) = lit "bg-green-500" <-> h = online) /\
  (dot (indicator h) = lit "bg-red-500" <-> h = offline).
Proof.
  destruct h; simpl; repeat split; intros H; reflexivity || discriminate H.
Qed.

(** X5. The header shows the pulsing yellow dot and [Checking...] until the
    first poll has settled.  After a poll it shows the green dot and
    [Connected] exactly when that poll was answered before the 5000 ms abort
    with a status from 200 to 299, and the red dot and [Disconnected]
    otherwise; it never goes back to [Checking...]. *)
Theorem Header_follows_last_poll (polls : list Network) (net : Network) :
  Header [] = {| dot := lit "bg-yellow-500 animate-pulse";
                 tooltip := lit "Checking connection...";
                 caption := lit "Checking..." |} /\
  (caption (Header (polls ++ [net])) = lit "Connected" <->
     exists l st, net = Responds l st /\ (l < 5000)%N /\ (200 <= st <= 299)%N) /\
  (dot (Header (polls ++ [net])) = lit "bg-green-500" <->
     caption (Header (polls ++ [net])) = lit "Connected") /\
  (caption (Header (polls ++ [net])) = lit "Disconnected" <->
     ~ exists l st, net = Responds l st /\ (l < 5000)%N /\ (200 <= st <= 299)%N) /\
  (dot (Header (polls ++ [net])) = lit "bg-red-500" <->
     caption (Header (polls ++ [net])) = lit "Disconnected") /\
  caption (Header (polls ++ [net])) <> lit "Checking...".
Proof.
  unfold Header. rewrite HealthFacts.useHealthCheck_last.
  destruct (indicator_caption (checkHealth net)) as (Hc & Hd & Hk & Hg & Hr).
  assert (Hon : checkHealth net = online <->
            exists l st, net = Responds l st /\ (l < 5000)%N /\ (200 <= st <= 299)%N).
  { rewrite HealthFacts.checkHealth_online; split.
    - intros [st [Hf Hok]]. apply HealthFacts.fetch_fulfilled in Hf.
      destruct Hf as [l [-> Hl]]. exists l, st. apply HealthFacts.ok_range in Hok.
      repeat split; try exact Hl; lia.
    - intros [l [st [-> [Hl Hst]]]]. exists st; split.
      + apply HealthFacts.fetch_fulfilled; eauto.
      + apply HealthFacts.ok_range; exact Hst. }
  split; [reflexivity|].
  split; [rewrite Hc; exact Hon|].
  split; [rewrite Hg, Hc; reflexivity|].
  split.
  { rewrite Hd. split.
    - intros Hoff Hex. apply Hon in Hex. congruence.
    - intros Hno. destruct (HealthFacts.checkHealth_settled net) as [H|H]; [|exact H].
      exfalso; apply Hno, Hon, H. }
  split; [rewrite Hr, Hd; reflexivity|].
  rewrite Hk. destruct (HealthFacts.checkHealth_settled net) as [H|H]; rewrite H; discriminate.
Qed.

End ComponentFacts.

(* ------------------------------------------------------------------------- *)
(** ** The page across a whole request *)

Module PageFacts.
Import JS Index Surface IndexView.

Lemma perform_surface (e : Effect) (w : World) :
  surface (perform e w) = apply (surface w) e.
Proof. destruct e; reflexivity. Qed.

Lemma run_surface (es : list Effect) :
  forall w, surface (run es w) = fold_left apply es (surface w).
Proof.
  induction es as [|e es IH]; intros w; [reflexivity|].
  rewrite IndexFacts.run_cons, IH, perform_surface. reflexivity.
Qed.



Section Handler.
Variable clock : N -> jsstring.
Variable nullAccessMessage : jsstring.

Lemma timer_callback_surface (tm : Timer) (q : list Timer) (t : N) (w : World) :
  surface (timer_callback clock tm (with_timers q (at_time t w))) = surface w.
Proof.
  unfold timer_callback. destruct (event_message (event tm)); reflexivity.
Qed.

(** Timers change nothing but the timeline. *)
Lemma fire_trace_surface (limit : N) (q : list Timer) :
  forall w, surface (last (fire_trace clock limit q w) w) = surface w.
Proof.
  induction q as [|tm q IH]; intros w; simpl; [reflexivity|].
  destruct (due tm <=? limit)%N; [|reflexivity].
  rewrite IndexFacts.last_cons, IH. apply timer_callback_surface.
Qed.

Lemma await_surface (dt : N) (w : World) :
  surface (last (await_trace clock dt w) w) = surface w.
Proof.
  unfold await_trace. rewrite IndexFacts.last_append. simpl.
  change (surface (at_time (now w + dt) (last (fire_trace clock (now w + dt) (timers w) w) w)))
    with (surface (last (fire_trace clock (now w + dt) (timers w) w) w)).
  apply fire_trace_surface.
Qed.

Lemma settle_surface (w : World) :
  surface (last (settle_trace clock w) w) = surface w.
Proof. apply fire_trace_surface. Qed.

Lemma in_flight_surface (query : jsstring) (latency : N) (w : World) :
  surface (in_flight clock query latency w) =
    {| loading := true; failure := None; shown_answer := JStr [];
       shown_citations := JArr []; raised := toasts w |}.
Proof. unfold in_flight. rewrite await_surface. reflexivity. Qed.

(** Apart from the timeline, the page at the end of a request is what the
    statements after the wait make of the cleared page. *)
Lemma handleResearch_surface (query : jsstring) (latency : N)
    (outcome : FetchOutcome) (w : World) :
  surface (handleResearch clock nullAccessMessage query latency outcome w) =
    fold_left apply
      (handleResearch_resume clock nullAccessMessage outcome
         (now (in_flight clock query latency w)))
      {| loading := true; failure := None; shown_answer := JStr [];
         shown_citations := JArr []; raised := toasts w |}.
Proof.
  unfold handleResearch, handleResearch_trace; cbv zeta.
  rewrite IndexFacts.last_cons, !IndexFacts.last_append.
  rewrite settle_surface.
  fold (in_flight clock query latency w).
  fold (run (handleResearch_resume clock nullAccessMessage outcome
               (now (in_flight clock query latency w))) (in_flight clock query latency w)).
  rewrite run_surface, in_flight_surface. reflexivity.
Qed.

(** X6. While a request is in flight the page is locked and clean, whatever it
    showed before: loading is on, so the form drops every submission and its
    button is disabled; no error, answer or citation of an earlier request
    is left; no alert is shown, and the results grid is shown with the
    timeline that now starts with the start event of this request. *)
Theorem in_flight_page_locked_and_clean (query : jsstring) (latency : N)
    (w : World) (text : jsstring) :
  isLoading (ui (in_flight clock query latency w)) = true /\
  error (ui (in_flight clock query latency w)) = None /\
  answer (ui (in_flight clock query latency w)) = JStr [] /\
  citations (ui (in_flight clock query latency w)) = JArr [] /\
  form_submit (ui (in_flight clock query latency w)) text = None /\
  ResearchForm.submit_disabled text
    (isLoading (ui (in_flight clock query latency w))) = true /\
  alert (ui (in_flight clock query latency w)) = None /\
  results_grid (ui (in_flight clock query latency w)) = true /\
  exists added,
    timeline (ui (in_flight clock query latency w)) =
      start_event clock query (now w) :: added.
Proof.
  pose proof (in_flight_surface query latency w) as Hs.
  assert (Hl : isLoading (ui (in_flight clock query latency w)) = true)
    by exact (f_equal loading Hs).
  assert (He : error (ui (in_flight clock query latency w)) = None)
    by exact (f_equal failure Hs).
  assert (Ht : exists added,
            timeline (ui (in_flight clock query latency w)) =
              start_event clock query (now w) :: added).
  { unfold in_flight.
    destruct (IndexFacts.await_appends clock latency
                (run (handleResearch_begin clock query (now w)) w))
      as (_ & _ & _ & _ & added & Hadd & _).
    exists added. rewrite Hadd. reflexivity. }
  split; [exact Hl|]. split; [exact He|].
  split; [exact (f_equal shown_answer Hs)|].
  split; [exact (f_equal shown_citations Hs)|].
  split; [unfold form_submit, ResearchForm.handleSubmit; rewrite Hl, andb_false_r; reflexivity|].
  split; [unfold ResearchForm.submit_disabled; rewrite Hl, orb_true_r; reflexivity|].
  split; [unfold alert; rewrite He; reflexivity|].
  split; [|exact Ht].
  destruct Ht as [added Ht]. unfold results_grid. rewrite Ht. reflexivity.
Qed.



(** X9. An ok response that cannot be used ends as a failure, on a page without
    pending timers: when the body is not JSON the timeline is the start
    event followed by the error entry with the message of the parse error;
    when the body is the JSON [null] the processing entry has already been
    appended, and the error entry follows it.  The answer stays empty in
    both cases. *)
Theorem ok_response_without_usable_body (query : jsstring) (latency : N)
    (r : Response) (w : World) :
  timers w = [] ->
  ok r = true ->
  (forall err, json r = inl err ->
     timeline (ui (handleResearch clock nullAccessMessage query latency (Fulfilled r) w)) =
       [ start_event clock query (now w);
         error_event clock (errorMessage err) (now w + latency) ] /\
     error (ui (handleResearch clock nullAccessMessage query latency (Fulfilled r) w)) =
       Some (errorMessage err) /\
     answer (ui (handleResearch clock nullAccessMessage query latency (Fulfilled r) w)) =
       JStr []) /\
  (json r = inr JNull ->
     timeline (ui (handleResearch clock nullAccessMessage query latency (Fulfilled r) w)) =
       [ start_event clock query (now w);
         processing_event clock (now w + latency);
         error_event clock nullAccessMessage (now w + latency) ] /\
     error (ui (handleResearch clock nullAccessMessage query latency (Fulfilled r) w)) =
       Some nullAccessMessage /\
     answer (ui (handleResearch clock nullAccessMessage query latency (Fulfilled r) w)) =
       JStr []).
Proof.
  intros Hq Hok.
  destruct w as [s q t ts re]; simpl in Hq; subst q.
  unfold handleResearch, handleResearch_trace, handleResearch_resume,
    await_trace, settle_trace; cbv zeta.
  rewrite Hok. simpl negb. cbv iota.
  split.
  - intros err Hjson. rewrite Hjson. repeat split.
  - intros Hjson. rewrite Hjson. repeat split.
Qed.

Lemma run_extends (es : list Effect) (w : World) :
  Forall keeps_entries es -> extends w (run es w).
Proof.
  intros Hes. unfold run.
  apply (IndexFacts.stepwise_last _ IndexFacts.extends_refl IndexFacts.extends_trans).
  apply IndexFacts.run_trace_extends, Hes.
Qed.

(** The statements after the wait append at least one entry. *)
Lemma resume_appends_an_entry (outcome : FetchOutcome) (t : N) (w : World) :
  exists ev more,
    timeline (ui (run (handleResearch_resume clock nullAccessMessage outcome t) w)) =
      timeline (ui w) ++ ev :: more.
Proof.
  assert (Hcatch : forall err,
    exists ev more,
      timeline (ui (run (catch_block clock err t ++ finally_block) w)) =
        timeline (ui w) ++ ev :: more).
  { intros err. eexists; exists []. reflexivity. }
  unfold handleResearch_resume.
  destruct outcome as [err|r]; [apply Hcatch|].
  destruct (negb (ok r)); [apply Hcatch|].
  destruct (json r) as [err|data]; [apply Hcatch|].
  assert (Hrest : Forall keeps_entries
            (tl (process_data clock nullAccessMessage data t) ++ finally_block)).
  { pose proof (IndexFacts.process_data_keeps clock nullAccessMessage data t) as H.
    apply Forall_app; split; [|repeat constructor].
    inversion H; assumption. }
  change (process_data clock nullAccessMessage data t ++ finally_block)
    with (appendTimeline (processing_event clock t) ::
          tl (process_data clock nullAccessMessage data t) ++ finally_block).
  rewrite IndexFacts.run_cons.
  destruct (run_extends _ (perform (appendTimeline (processing_event clock t)) w) Hrest)
    as [more Hmore].
  exists (processing_event clock t), more.
  rewrite Hmore. simpl. rewrite <- app_assoc. reflexivity.
Qed.

Lemma handleResearch_timeline_shape (query : jsstring) (latency : N)
    (outcome : FetchOutcome) (w : World) :
  exists ev more,
    timeline (ui (handleResearch clock nullAccessMessage query latency outcome w)) =
      start_event clock query (now w) :: ev :: more.
Proof.
  unfold handleResearch, handleResearch_trace; cbv zeta.
  rewrite IndexFacts.last_cons, !IndexFacts.last_append.
  fold (in_flight clock query latency w).
  set (w2 := in_flight clock query latency w).
  fold (run (handleResearch_resume clock nullAccessMessage outcome (now w2)) w2).
  set (w3 := run _ w2).
  destruct (IndexFacts.settle_appends clock w3) as (_ & _ & _ & _ & after & Ha & _).
  rewrite Ha. unfold w3.
  destruct (resume_appends_an_entry outcome (now w2) w2) as (ev & more & Hr).
  rewrite Hr.
  destruct (IndexFacts.await_appends clock latency
              (run (handleResearch_begin clock query (now w)) w))
    as (_ & _ & _ & _ & before & Hb & _).
  fold (in_flight clock query latency w) in Hb. fold w2 in Hb. rewrite Hb.
  change (timeline (ui (run (handleResearch_begin clock query (now w)) w)))
    with [start_event clock query (now w)].
  destruct before as [|b before].
  - exists ev, (more ++ after). reflexivity.
  - exists b, ((before ++ ev :: more) ++ after). reflexivity.
Qed.

(** The conditions of the JSX at the end of a request: the grid condition
    holds, and the alert condition holds exactly when the error message is
    set and not empty. *)
Lemma conditions_after_request (query : jsstring) (latency : N)
    (outcome : FetchOutcome) (w : World) :
  results_grid (ui (handleResearch clock nullAccessMessage query latency outcome w)) = true /\
  (alert (ui (handleResearch clock nullAccessMessage query latency outcome w)) = None <->
     error (ui (handleResearch clock nullAccessMessage query latency outcome w)) = None \/
     error (ui (handleResearch clock nullAccessMessage query latency outcome w)) = Some []) /\
  (forall r, outcome = Fulfilled r -> ok r = false ->
     alert (ui (handleResearch clock nullAccessMessage query latency outcome w)) =
       Some (lit "Backend error: " ++ decimal (status r) ++ lit " " ++ statusText r)) /\
  (outcome = Rejected (ErrorObject []) ->
     error (ui (handleResearch clock nullAccessMessage query latency outcome w)) = Some [] /\
     alert (ui (handleResearch clock nullAccessMessage query latency outcome w)) = None).
Proof.
  destruct (handleResearch_timeline_shape query latency outcome w) as (ev & more & Ht).
  pose proof (handleResearch_surface query latency outcome w) as Hs.
  set (w' := handleResearch clock nullAccessMessage query latency outcome w) in *.
  assert (Hgrid : results_grid (ui w') = true).
  { unfold results_grid. rewrite Ht. reflexivity. }
  split; [exact Hgrid|].
  split.
  { unfold alert. destruct (error (ui w')) as [[|c m]|]; simpl; split; intros H;
      try reflexivity; try discriminate; auto.
    destruct H; discriminate. }
  split.
  - intros r -> Hok.
    assert (He : error (ui w') =
              Some (lit "Backend error: " ++ decimal (status r) ++ lit " " ++ statusText r)).
    { change (error (ui w')) with (failure (surface w')). rewrite Hs.
      unfold handleResearch_resume. rewrite Hok. reflexivity. }
    unfold alert. rewrite He. reflexivity.
  - intros ->.
    assert (He : error (ui w') = Some []).
    { change (error (ui w')) with (failure (surface w')). rewrite Hs. reflexivity. }
    unfold alert. rewrite He. split; reflexivity.
Qed.

(** *** Timers of earlier requests *)











End Handler.

(** *** Closed instances *)

Lemma ok_response_without_usable_body_witness :
  timers initial_world = [] /\
  Index.ok Samples.null_response = true /\
  map id (timeline (ui (Samples.page_after (Fulfilled Samples.null_response)))) =
    [lit "start"; lit "processing"; lit "error"].
Proof.
  split; [reflexivity|]. split; [reflexivity|].
  destruct (ok_response_without_usable_body Samples.clock Samples.nullAccessMessage
              Samples.query 120 Samples.null_response initial_world
              eq_refl eq_refl) as (_ & Hnull).
  destruct (Hnull eq_refl) as (Ht & _).
  unfold Samples.page_after. rewrite Ht. reflexivity.
Defined.


(** *** React keys of the timeline rows *)

Lemma lit_injective (a b : string) : lit a = lit b -> a = b.
Proof.
  unfold lit. intros H.
  apply (f_equal (map ascii_of_N)) in H. rewrite !map_map in H.
  rewrite !(map_ext _ (fun x => x) ascii_N_embedding), !map_id in H.
  rewrite <- (string_of_list_ascii_of_string a), <- (string_of_list_ascii_of_string b), H.
  reflexivity.
Qed.

(** Different numbers print differently. *)
Lemma decimal_injective (m n : N) : decimal m = decimal n -> m = n.
Proof.
  unfold decimal. intros H. apply lit_injective in H.
  assert (Hnn : forall k, N.to_uint k <> Decimal.Nil).
  { intros [|p]; [discriminate | apply DecimalPos.Unsigned.to_uint_nonnil]. }
  apply (f_equal NilZero.uint_of_string) in H.
  rewrite !NilZero.usu in H by apply Hnn.
  injection H as H. apply DecimalN.Unsigned.to_uint_inj, H.
Qed.

Lemma event_entries_ids (clock : N -> jsstring) (t : N) (items : list Json) :
  forall idx ev, In ev (event_entries clock t idx items) ->
    exists j, (idx <= j)%N /\ id ev = lit "event-" ++ decimal j.
Proof.
  induction items as [|item items IH]; intros idx ev Hin; [contradiction|].
  destruct Hin as [<-|Hin].
  - exists idx; split; [lia | reflexivity].
  - destruct (IH (idx + 1)%N ev Hin) as (j & Hj & Hid).
    exists j; split; [lia | exact Hid].
Qed.

Lemma event_entries_distinct_ids (clock : N -> jsstring) (t : N) (items : list Json) :
  forall idx, NoDup (map id (event_entries clock t idx items)).
Proof.
  induction items as [|item items IH]; intros idx; simpl; constructor; [|apply IH].
  intros Hin. apply in_map_iff in Hin. destruct Hin as (ev & Hid & Hin).
  destruct (event_entries_ids clock t items (idx + 1)%N ev Hin) as (j & Hj & Hj').
  rewrite Hj' in Hid. simpl in Hid. injection Hid as Hid.
  apply decimal_injective in Hid. lia.
Qed.

Example stale_timer_repeats_a_key :
  Samples.ids
    (handleResearch Samples.clock Samples.nullAccessMessage Samples.query 120
       (Fulfilled Samples.events_response) Samples.page_with_pending_timer) =
    [ lit "start"; lit "processing"; lit "complete";
      lit "event-0"; lit "event-1"; lit "event-1" ].
Proof. reflexivity. Qed.

(** The ids that one successful response leaves in the timeline of a page
    without pending timers are pairwise different. *)
Lemma timeline_ids_distinct (clock : N -> jsstring) (nullAccessMessage : jsstring)
    (query : jsstring) (latency : N) (r : Response) (data : Json)
    (items : list Json) (w : World) :
  timers w = [] ->
  ok r = true ->
  json r = inr data ->
  get data (lit "events") = Value (JArr items) ->
  Forall (fun ev => ev <> JNull) items ->
  NoDup (map id
    (timeline (ui (handleResearch clock nullAccessMessage query latency (Fulfilled r) w)))) /\
  List.length
    (timeline (ui (handleResearch clock nullAccessMessage query latency (Fulfilled r) w)))
    = (3 + List.length items)%nat.
Proof.
  intros Hq Hok Hjson Hev Hnn.
  pose proof (IndexFacts.backend_events_follow_completion clock nullAccessMessage
                query latency r data items w Hq Hok Hjson Hev Hnn) as Ht.
  set (tl := timeline (ui (handleResearch clock nullAccessMessage query latency
                             (Fulfilled r) w))) in *.
  split.
  { rewrite Ht. simpl.
    assert (Hnot : forall s,
              (forall j, s <> lit "event-" ++ decimal j) ->
              ~ In s (map id (event_entries clock (now w + latency) 0 items))).
    { intros s Hs Hin. apply in_map_iff in Hin. destruct Hin as (ev & Hid & Hin).
      destruct (event_entries_ids clock _ items 0%N ev Hin) as (j & _ & Hj).
      apply (Hs j). rewrite <- Hid. exact Hj. }
    constructor.
    { intros [H|[H|H]]; try discriminate H.
      revert H. apply Hnot. intros j H. discriminate H. }
    constructor.
    { intros [H|H]; try discriminate H.
      revert H. apply Hnot. intros j H. discriminate H. }
    constructor.
    { apply Hnot. intros j H. discriminate H. }
    apply event_entries_distinct_ids. }
  rewrite Ht. simpl. f_equal. f_equal. f_equal.
  clear. generalize 0%N. induction items as [|item items IH]; intros idx; simpl;
    [reflexivity | rewrite IH; reflexivity].
Qed.

(** *** Events of a response, entry by entry *)


(** *** A new request and the page before it *)

(** X14. What the page shows when a request has been handled does not depend on
    what it showed before the request: of the earlier page only the pending
    timers, the clock and the toasts matter; the earlier answer, citations,
    error, timeline and loading flag leave no trace. *)
Theorem handleResearch_forgets_previous_page (clock : N -> jsstring)
    (nullAccessMessage : jsstring) (query : jsstring) (latency : N)
    (outcome : FetchOutcome) (w : World) (before : State) :
  handleResearch clock nullAccessMessage query latency outcome
    {| ui := before; timers := timers w; now := now w;
       toasts := toasts w; renderError := renderError w |} =
  handleResearch clock nullAccessMessage query latency outcome w.
Proof.
  destruct w as [s q t ts re]. simpl.
  unfold handleResearch, handleResearch_trace; cbv zeta.
  assert (Hbegin :
    run (handleResearch_begin clock query t)
      {| ui := before; timers := q; now := t; toasts := ts; renderError := re |} =
    run (handleResearch_begin clock query t)
      {| ui := s; timers := q; now := t; toasts := ts; renderError := re |})
    by reflexivity.
  simpl now. rewrite !IndexFacts.last_cons, Hbegin. reflexivity.
Qed.

(** *** Responses of the declared types *)

Lemma typed_state_render (s : State) :
  typed_state s = true ->
  exists a cs,
    answer s = JStr a /\ as_citations (citations s) = Some cs /\
    render s =
      Some {| alertText := alert s;
              grid := if results_grid s
                      then Some (TimelineTsx.Timeline (timeline s),
                                 AnswerPanelTsx.AnswerPanel a cs)
                      else None |}.
Proof.
  unfold typed_state, is_citations, render. intros H.
  apply andb_true_iff in H. destruct H as [H Ht].
  apply andb_true_iff in H. destruct H as [Ha Hc].
  destruct (answer s) as [| | |a| |]; try discriminate Ha.
  destruct (as_citations (citations s)) as [cs|]; [|discriminate Hc].
  exists a, cs. rewrite Ht. repeat split.
Qed.

Lemma sound_mounted (w : World) : sound w -> mounted w.
Proof.
  intros (Hr & Ht & _). split; [exact Hr|].
  destruct (typed_state_render (ui w) Ht) as (a & cs & _ & _ & Hrender).
  rewrite Hrender. discriminate.
Qed.

Lemma enqueue_typed (tm : Timer) (q : list Timer) :
  event_shows_text (event tm) = true ->
  forallb (fun x => event_shows_text (event x)) q = true ->
  forallb (fun x => event_shows_text (event x)) (enqueue tm q) = true.
Proof.
  intros Htm. induction q as [|x q IH]; simpl; intros Hq.
  - rewrite Htm. reflexivity.
  - apply andb_true_iff in Hq. destruct Hq as [Hx Hq].
    destruct (due x <=? due tm)%N; simpl.
    + rewrite Hx, (IH Hq). reflexivity.
    + rewrite Htm, Hx, Hq. reflexivity.
Qed.

(** A statement that stores values of the declared types leaves the page on
    screen. *)
Lemma perform_sound (e : Effect) (w : World) :
  typed_effect e = true -> sound w -> sound (perform e w).
Proof.
  intros He (Hr & Ht & Hq). unfold typed_state in Ht.
  apply andb_true_iff in Ht. destruct Ht as [Ht Htl].
  apply andb_true_iff in Ht. destruct Ht as [Ha Hc].
  destruct e; simpl in He; unfold sound, typed_state; simpl;
    (split; [exact Hr|]); (split; [|try exact Hq]);
    try (rewrite Ha, Hc, Htl; reflexivity).
  - rewrite Ha, Hc, He. reflexivity.
  - rewrite Ha, Hc, forallb_app, Htl. simpl. rewrite He. reflexivity.
  - rewrite He, Hc, Htl. reflexivity.
  - rewrite Ha, He, Htl. reflexivity.
  - apply enqueue_typed; assumption.
Qed.

Lemma run_trace_sound (es : list Effect) :
  Forall (fun e => typed_effect e = true) es ->
  forall w, sound w ->
    Forall sound (run_trace es w) /\ sound (last (run_trace es w) w).
Proof.
  induction 1 as [|e es He _ IH]; intros w Hw; [split; [constructor | exact Hw]|].
  change (run_trace (e :: es) w) with (perform e w :: run_trace es (perform e w)).
  rewrite IndexFacts.last_cons.
  pose proof (perform_sound e w He Hw) as Hw'.
  destruct (IH _ Hw') as [Hall Hlast].
  split; [constructor; assumption | exact Hlast].
Qed.

Section Mounted.
Variable clock : N -> jsstring.
Variable nullAccessMessage : jsstring.

Lemma timer_callback_sound (tm : Timer) (q : list Timer) (t : N) (w : World) :
  event_shows_text (event tm) = true ->
  forallb (fun x => event_shows_text (event x)) q = true ->
  sound w ->
  sound (timer_callback clock tm (with_timers q (at_time t w))).
Proof.
  intros Htm Hq (Hr & Ht & _). unfold timer_callback.
  unfold event_shows_text in Htm.
  destruct (event_message (event tm)) as [m|]; [|discriminate Htm].
  destruct m; try discriminate Htm.
  apply perform_sound; [reflexivity|].
  split; [exact Hr|]. split; [exact Ht | exact Hq].
Qed.

(** Timers whose events show as text leave the page on screen. *)
Lemma fire_trace_sound (limit : N) (q : list Timer) :
  forallb (fun x => event_shows_text (event x)) q = true ->
  forall w, sound w ->
    Forall sound (fire_trace clock limit q w) /\
    sound (last (fire_trace clock limit q w) w).
Proof.
  induction q as [|tm q IH]; intros Hq w Hw; [split; [constructor | exact Hw]|].
  simpl in Hq. apply andb_true_iff in Hq. destruct Hq as [Htm Hq].
  simpl. destruct (due tm <=? limit)%N; [|split; [constructor | exact Hw]].
  rewrite IndexFacts.last_cons.
  pose proof (timer_callback_sound tm q (N.max (now w) (due tm)) w Htm Hq Hw) as Hw'.
  destruct (IH Hq _ Hw') as [Hall Hlast].
  split; [constructor; assumption | exact Hlast].
Qed.

Lemma await_trace_sound (dt : N) (w : World) :
  sound w ->
  Forall sound (await_trace clock dt w) /\ sound (last (await_trace clock dt w) w).
Proof.
  intros Hw. unfold await_trace.
  destruct Hw as (Hr & Ht & Hq).
  destruct (fire_trace_sound (now w + dt) (timers w) Hq w (conj Hr (conj Ht Hq)))
    as [Hall Hlast].
  assert (Hat : sound (at_time (now w + dt)
                         (last (fire_trace clock (now w + dt) (timers w) w) w)))
    by exact Hlast.
  rewrite IndexFacts.last_append. simpl.
  split; [|exact Hat].
  apply Forall_app; split; [exact Hall | constructor; [exact Hat | constructor]].
Qed.

Lemma settle_trace_sound (w : World) :
  sound w ->
  Forall sound (settle_trace clock w) /\ sound (last (settle_trace clock w) w).
Proof.
  intros Hw. destruct Hw as (Hr & Ht & Hq).
  exact (fire_trace_sound _ (timers w) Hq w (conj Hr (conj Ht Hq))).
Qed.

Lemma begin_sound (query : jsstring) (w : World) :
  healthy w -> sound (run (handleResearch_begin clock query (now w)) w).
Proof.
  intros [[Hr _] Hq]. destruct w as [s q t ts re]. simpl in *.
  split; [exact Hr|]. split; [reflexivity | exact Hq].
Qed.

Lemma schedule_events_typed (items : list Json) :
  forallb event_shows_text items = true ->
  forall idx, Forall (fun e => typed_effect e = true) (schedule_events idx items).
Proof.
  induction items as [|ev items IH]; simpl; intros H idx; [constructor|].
  apply andb_true_iff in H. destruct H as [Hev H].
  constructor; [exact Hev | apply IH, H].
Qed.

Lemma catch_block_typed (err : Thrown) (t : N) :
  Forall (fun e => typed_effect e = true) (catch_block clock err t).
Proof. repeat constructor. Qed.

(** For a response of the declared types, the statements after the wait
    store only values of the declared types. *)
Lemma resume_typed (outcome : FetchOutcome) (t : N) :
  well_typed outcome = true ->
  Forall (fun e => typed_effect e = true)
    (handleResearch_resume clock nullAccessMessage outcome t).
Proof.
  intros Hwt. unfold handleResearch_resume.
  apply Forall_app; split; [|repeat constructor].
  destruct outcome as [err|r]; [apply catch_block_typed|].
  simpl in Hwt. destruct (ok r); simpl; [|apply catch_block_typed].
  destruct (json r) as [err|data]; [apply catch_block_typed|].
  unfold well_typed_body in Hwt.
  apply andb_true_iff in Hwt. destruct Hwt as [Hwt Hev].
  apply andb_true_iff in Hwt. destruct Hwt as [Ha Hc].
  unfold process_data. constructor; [reflexivity|].
  destruct (get data (lit "events")) as [| |v]; [apply catch_block_typed | |].
  - simpl. repeat constructor; assumption.
  - apply Forall_app; split.
    + destruct v; try constructor. apply schedule_events_typed, Hev.
    + repeat constructor; assumption.
Qed.

(** A response of the declared types, met by a page that is on screen, never
    takes the page off screen: every state the page goes through can be
    rendered. *)
Lemma trace_sound (query : jsstring) (latency : N) (outcome : FetchOutcome)
    (w : World) :
  healthy w ->
  well_typed outcome = true ->
  Forall sound (handleResearch_trace clock nullAccessMessage query latency outcome w) /\
  sound (handleResearch clock nullAccessMessage query latency outcome w).
Proof.
  intros Hw Hwt. unfold handleResearch, handleResearch_trace; cbv zeta.
  rewrite IndexFacts.last_cons, !IndexFacts.last_append.
  set (w1 := run (handleResearch_begin clock query (now w)) w).
  pose proof (begin_sound query w Hw) as H1. fold w1 in H1.
  destruct (await_trace_sound latency w1 H1) as [A1 A2].
  set (w2 := last (await_trace clock latency w1) w1) in *.
  destruct (run_trace_sound _ (resume_typed outcome (now w2) Hwt) w2 A2) as [R1 R2].
  set (w3 := last (run_trace _ w2) w2) in *.
  destruct (settle_trace_sound w3 R2) as [S1 S2].
  split; [|exact S2].
  constructor; [exact H1|].
  apply Forall_app; split; [exact A1|].
  apply Forall_app; split; [exact R1 | exact S1].
Qed.

Lemma trace_mounted (query : jsstring) (latency : N) (outcome : FetchOutcome)
    (w : World) :
  healthy w ->
  well_typed outcome = true ->
  Forall mounted (handleResearch_trace clock nullAccessMessage query latency outcome w).
Proof.
  intros Hw Hwt. destruct (trace_sound query latency outcome w Hw Hwt) as [H _].
  eapply Forall_impl; [|exact H]. apply sound_mounted.
Qed.

Lemma Timeline_some (events : list TimelineEvent) :
  events <> [] -> exists rows, TimelineTsx.Timeline events = Some rows.
Proof.
  destruct events as [|ev events]; [contradiction | intros _].
  eexists; reflexivity.
Qed.

(** An event that shows as text is a string, or an object with a non-empty
    string message; the entry shows that string. *)
Lemma event_shows_text_cases (ev : Json) :
  event_shows_text ev = true ->
  ev <> JNull /\
  exists s,
    or_else (get ev (lit "message")) ev = JStr s /\
    (ev = JStr s \/ (get ev (lit "message") = Value (JStr s) /\ s <> [])).
Proof.
  unfold event_shows_text, event_message, or_else. intros H.
  split; [intros ->; discriminate H|].
  destruct (get ev (lit "message")) as [| |m] eqn:Hg; [discriminate H | |].
  - destruct ev; try discriminate H. eexists; split; [reflexivity | left; reflexivity].
  - destruct (truthy m) eqn:Hm.
    + destruct m; try discriminate H. exists s. split; [reflexivity|].
      right; split; [reflexivity|]. intros ->; discriminate Hm.
    + destruct ev; try discriminate H; simpl in Hg; discriminate Hg.
Qed.

(** What the page shows at the end of a request with a response of the
    declared types: the alert under its condition, and the grid with the
    timeline card and the answer card. *)
Lemma final_render (query : jsstring) (latency : N) (outcome : FetchOutcome)
    (w : World) :
  healthy w ->
  well_typed outcome = true ->
  exists a cs,
    answer (ui (handleResearch clock nullAccessMessage query latency outcome w)) = JStr a /\
    as_citations
      (citations (ui (handleResearch clock nullAccessMessage query latency outcome w))) =
      Some cs /\
    render (ui (handleResearch clock nullAccessMessage query latency outcome w)) =
      Some {| alertText :=
                alert (ui (handleResearch clock nullAccessMessage query latency outcome w));
              grid :=
                Some (TimelineTsx.Timeline
                        (timeline (ui (handleResearch clock nullAccessMessage query
                                         latency outcome w))),
                      AnswerPanelTsx.AnswerPanel a cs) |}.
Proof.
  intros Hw Hwt.
  destruct (trace_sound query latency outcome w Hw Hwt) as [_ (_ & Ht & _)].
  destruct (typed_state_render _ Ht) as (a & cs & Ha & Hc & Hr).
  destruct (conditions_after_request clock nullAccessMessage query latency outcome w)
    as (Hgrid & _).
  rewrite Hgrid in Hr. exists a, cs. repeat split; assumption.
Qed.




Lemma well_typed_events (r : Response) (data : Json) (items : list Json) :
  ok r = true -> json r = inr data ->
  get data (lit "events") = Value (JArr items) ->
  well_typed_body data = true ->
  well_typed (Fulfilled r) = true /\
  forallb event_shows_text items = true /\
  Forall (fun ev => ev <> JNull) items.
Proof.
  intros Hok Hjson Hev Hbody.
  split; [simpl; rewrite Hok, Hjson; exact Hbody|].
  unfold well_typed_body in Hbody. rewrite Hev in Hbody.
  apply andb_true_iff in Hbody. destruct Hbody as [_ Hitems].
  split; [exact Hitems|].
  apply Forall_forall. intros ev Hin.
  rewrite forallb_forall in Hitems.
  apply (event_shows_text_cases ev (Hitems ev Hin)).
Qed.

(** X12. On a page that is on screen and has no pending timers, a successful
    response of the declared types with an [events] array leaves the page on
    screen with a timeline whose entries have pairwise different ids,
    however many events there are; the timeline card has 3 + n rows for n
    events, and its rows, keyed by these ids, have pairwise different React
    keys. *)
Theorem timeline_keys_distinct (query : jsstring) (latency : N) (r : Response)
    (data : Json) (items : list Json) (w : World) :
  timers w = [] ->
  mounted w ->
  ok r = true ->
  json r = inr data ->
  get data (lit "events") = Value (JArr items) ->
  well_typed_body data = true ->
  Forall mounted
    (handleResearch_trace clock nullAccessMessage query latency (Fulfilled r) w) /\
  NoDup (map id
    (timeline (ui (handleResearch clock nullAccessMessage query latency (Fulfilled r) w)))) /\
  (exists view rows panel,
     render (ui (handleResearch clock nullAccessMessage query latency (Fulfilled r) w)) =
       Some view /\
     grid view = Some (Some rows, panel) /\
     NoDup (map TimelineTsx.key rows) /\
     List.length rows = (3 + List.length items)%nat).
Proof.
  intros Hq Hre Hok Hjson Hev Hbody.
  destruct (well_typed_events r data items Hok Hjson Hev Hbody) as (Hwt & _ & Hnn).
  assert (Hw : healthy w) by (split; [exact Hre | rewrite Hq; reflexivity]).
  split; [apply trace_mounted; assumption|].
  destruct (timeline_ids_distinct clock nullAccessMessage query latency r data items w
              Hq Hok Hjson Hev Hnn) as [Hnd Hlen].
  split; [exact Hnd|].
  destruct (final_render query latency (Fulfilled r) w Hw Hwt) as (a & cs & _ & _ & Hr).
  set (tl := timeline (ui (handleResearch clock nullAccessMessage query latency
                             (Fulfilled r) w))) in *.
  assert (Hne : tl <> []) by (intros H; rewrite H in Hlen; discriminate Hlen).
  destruct (Timeline_some tl Hne) as [rows Hrows].
  destruct (ComponentFacts.Timeline_keys tl rows Hrows) as [Hkeys Hrl].
  rewrite Hrows in Hr.
  eexists; exists rows; eexists.
  split; [exact Hr|]. split; [reflexivity|].
  split; [rewrite Hkeys; exact Hnd | rewrite Hrl; exact Hlen].
Qed.


End Mounted.

(** *** Closed instances for responses of the declared types *)




Lemma timeline_keys_distinct_witness :
  timers initial_world = [] /\
  mounted initial_world /\
  Index.ok Samples.events_response = true /\
  well_typed (Fulfilled Samples.events_response) = true /\
  NoDup (Samples.ids (Samples.page_after (Fulfilled Samples.events_response))).
Proof.
  assert (Hm : mounted initial_world)
    by (split; [reflexivity | vm_compute; discriminate]).
  split; [reflexivity|]. split; [exact Hm|]. split; [reflexivity|].
  split; [reflexivity|].
  apply (timeline_keys_distinct Samples.clock Samples.nullAccessMessage Samples.query 120
           Samples.events_response _ _ initial_world
           eq_refl Hm eq_refl eq_refl eq_refl eq_refl).
Defined.


End PageFacts.
